(** * uavsim map component: queue bridging and session supervision

    A shallow embedding of [src/uavsim/map.py]: the two [deque(maxlen=1)]
    hand-off slots, the [MapComponent] session callbacks, the presentation
    layer's entry points and the reconnecting [join_to_router] loop,
    followed by the properties the specification states about them and by
    further properties of the code. *)

From Stdlib Require Import Floats.PrimFloat.
From stdpp Require Import base option list strings gmap.

Set Default Proof Using "Type".

(* Decimal literals denote the nearest binary64 value, as in Python. *)
Set Warnings "-inexact-float".

(** ** Python values that travel through the slots *)

(** Telemetry fields and PID gains are Python floats, the coordinates the
    QML layer hands to [forceLocation] are Python strings. *)
Inductive pyval : Type :=
  | PyFloat (x : float)
  | PyStr (s : string).

(** ** [collections.deque] with a [maxlen] *)

Module Deque.

(** [items] is kept left to right: the head of the list is the left end. *)
Record deque (A : Type) : Type := Deque { maxlen : nat; items : list A }.
Arguments Deque {A} _ _.
Arguments maxlen {A} _.
Arguments items {A} _.

(** [deque(maxlen=n)] *)
Definition new_deque {A : Type} (n : nat) : deque A := Deque n [].

(** After a right append CPython discards one element from the left end
    when the size exceeds [maxlen]. *)
Definition trim {A : Type} (n : nat) (l : list A) : list A :=
  if n <? length l then tail l else l.

(** [d.append(v)]: never raises. *)
Definition append {A : Type} (v : A) (d : deque A) : deque A :=
  Deque (maxlen d) (trim (maxlen d) (items d ++ [v])).

(** [d.pop()]: removes and returns the right-most element; [None] stands
    for the [IndexError] raised on an empty deque. *)
Definition pop {A : Type} (d : deque A) : option (A * deque A) :=
  match rev (items d) with
  | [] => None
  | v :: r => Some (v, Deque (maxlen d) (rev r))
  end.

(** A run of appends, oldest first. *)
Definition appends {A : Type} (vs : list A) (d : deque A) : deque A :=
  fold_left (fun acc v => append v acc) vs d.

(** The state of a slot created by [deque(maxlen=1)] at any later time:
    the bound is 1 and at most one element is held. *)
Definition is_slot {A : Type} (d : deque A) : Prop :=
  maxlen d = 1 ∧ length (items d) ≤ 1.

End Deque.

Import Deque.

(** ** Exceptions, log records and the instrumented world *)

(** The exception classes the program can meet.  [OSError] is also
    [socket.error]; [ConnectionRefusedError] and [ConnectionResetError]
    derive from [ConnectionError], [gaierror] is [socket.gaierror];
    [TransportLost] is Autobahn's, raised by a call on a session that has
    lost its connection, and derives from [Exception] only. *)
Inductive exn : Type :=
  | KeyError (key : string)
  | IndexError
  | OSError
  | ConnectionRefusedError
  | ConnectionResetError
  | gaierror
  | RuntimeError
  | TransportLost.

(** [isinstance(e, KeyError)], [isinstance(e, IndexError)] and
    [isinstance(e, OSError)], the tests behind the three [except] clauses. *)
Definition is_KeyError (e : exn) : bool :=
  match e with KeyError _ => true | _ => false end.

Definition is_IndexError (e : exn) : bool :=
  match e with IndexError => true | _ => false end.

Definition is_OSError (e : exn) : bool :=
  match e with
  | OSError | ConnectionRefusedError | ConnectionResetError | gaierror => true
  | _ => false
  end.

(** What [logger.error] and [logger.warning] receive. *)
Inductive log_record : Type :=
  | LogError (e : exn)
  | LogWarning (msg : string).

(** The two shared deques and the methods called on them. *)
Inductive slot_name : Type := QueueToUi | QueueOut.
Inductive slot_method : Type := MAppend | MPop.

(** A telemetry sample is the tuple [(lat, lng, heading)]; an outbound
    command is the pair [(cmd, arguments)]. *)
Definition sample : Type := pyval * pyval * pyval.
Definition command : Type := string * list pyval.

(** Everything the modelled code reads or writes.  [published], [log],
    [registered] and [subscriptions] record the calls made on the session
    and on the logger; [calls] records every method call on either deque,
    in program order. *)
Record world : Type := World {
  queue_to_ui : deque sample;
  queue_out : deque command;
  is_running : bool;
  registered : list string;
  subscriptions : list string;
  published : list (string * list pyval);
  log : list log_record;
  calls : list (slot_name * slot_method)
}.

Definition set_queue_to_ui (d : deque sample) (w : world) : world :=
  World d (queue_out w) (is_running w) (registered w) (subscriptions w)
        (published w) (log w) (calls w).

Definition set_queue_out (d : deque command) (w : world) : world :=
  World (queue_to_ui w) d (is_running w) (registered w) (subscriptions w)
        (published w) (log w) (calls w).

Definition set_is_running (b : bool) (w : world) : world :=
  World (queue_to_ui w) (queue_out w) b (registered w) (subscriptions w)
        (published w) (log w) (calls w).

Definition add_registered (invoke : string) (w : world) : world :=
  World (queue_to_ui w) (queue_out w) (is_running w) (registered w ++ [invoke])
        (subscriptions w) (published w) (log w) (calls w).

Definition add_subscription (topic : string) (w : world) : world :=
  World (queue_to_ui w) (queue_out w) (is_running w) (registered w)
        (subscriptions w ++ [topic]) (published w) (log w) (calls w).

Definition add_published (p : string * list pyval) (w : world) : world :=
  World (queue_to_ui w) (queue_out w) (is_running w) (registered w)
        (subscriptions w) (published w ++ [p]) (log w) (calls w).

Definition add_log (r : log_record) (w : world) : world :=
  World (queue_to_ui w) (queue_out w) (is_running w) (registered w)
        (subscriptions w) (published w) (log w ++ [r]) (calls w).

Definition add_call (c : slot_name * slot_method) (w : world) : world :=
  World (queue_to_ui w) (queue_out w) (is_running w) (registered w)
        (subscriptions w) (published w) (log w) (calls w ++ [c]).

(** ** A state and exception monad for the Python code *)

(** A call returns, raises, or is still running when the modelled prefix
    of the execution ends ([Unfinished]).  A raise keeps the effects made
    before it. *)
Inductive outcome (A : Type) : Type :=
  | Returned (a : A)
  | Raised (e : exn)
  | Unfinished.
Arguments Returned {A} _.
Arguments Raised {A} _.
Arguments Unfinished {A}.

Definition M (A : Type) : Type := world → outcome A * world.

#[export] Instance M_ret : MRet M := λ A a w, (Returned a, w).

#[export] Instance M_bind : MBind M := λ A B f m w,
  match m w with
  | (Returned a, w') => f a w'
  | (Raised e, w') => (Raised e, w')
  | (Unfinished, w') => (Unfinished, w')
  end.

Definition raise {A : Type} (e : exn) : M A := λ w, (Raised e, w).

Definition unfinished {A : Type} : M A := λ w, (Unfinished, w).

(** [try: body / except E as e: handler e], where [catches] decides
    membership in the class [E]. *)
Definition try_except {A : Type} (body : M A) (catches : exn → bool)
    (handler : exn → M A) : M A := λ w,
  match body w with
  | (Raised e, w') => if catches e then handler e w' else (Raised e, w')
  | r => r
  end.

(** [while True: body].  Such a loop ends only by an exception; [fuel]
    bounds the number of iterations the model follows. *)
Fixpoint while_True (fuel : nat) (body : M unit) : M unit :=
  match fuel with
  | 0 => unfinished
  | S fuel' => body ;; while_True fuel' body
  end.

(** [for x in xs: f x] *)
Fixpoint for_each {A : Type} (f : A → M unit) (xs : list A) : M unit :=
  match xs with
  | [] => mret ()
  | x :: xs' => f x ;; for_each f xs'
  end.

(** *** Primitive operations *)

(** [telemetry[key]] *)
Definition getitem (telemetry : gmap string pyval) (key : string) : M pyval :=
  match telemetry !! key with
  | Some v => mret v
  | None => raise (KeyError key)
  end.

Definition queue_to_ui_append (v : sample) : M unit := λ w,
  (Returned (),
   set_queue_to_ui (append v (queue_to_ui w)) (add_call (QueueToUi, MAppend) w)).

Definition queue_to_ui_pop : M sample := λ w,
  let w1 := add_call (QueueToUi, MPop) w in
  match pop (queue_to_ui w) with
  | Some (v, d) => (Returned v, set_queue_to_ui d w1)
  | None => (Raised IndexError, w1)
  end.

Definition queue_out_append (c : command) : M unit := λ w,
  (Returned (),
   set_queue_out (append c (queue_out w)) (add_call (QueueOut, MAppend) w)).

Definition queue_out_pop : M command := λ w,
  let w1 := add_call (QueueOut, MPop) w in
  match pop (queue_out w) with
  | Some (c, d) => (Returned c, set_queue_out d w1)
  | None => (Raised IndexError, w1)
  end.

Definition logger_error (e : exn) : M unit := λ w,
  (Returned (), add_log (LogError e) w).

Definition logger_warning (msg : string) : M unit := λ w,
  (Returned (), add_log (LogWarning msg) w).

(** [self.publish(topic, *arguments)], [self.register(self, options=
    RegisterOptions(invoke=...))] and [self.subscribe(handler, topic)] belong
    to Autobahn; the model records each call. *)
Definition publish (topic : string) (arguments : list pyval) : M unit := λ w,
  (Returned (), add_published (topic, arguments) w).

Definition register (invoke : string) : M unit := λ w,
  (Returned (), add_registered invoke w).

Definition subscribe (topic : string) : M unit := λ w,
  (Returned (), add_subscription topic w).

(** ** [class MapComponent(ApplicationSession)] *)

Module MapComponent.

Definition on_sim_telemetry (telemetry : gmap string pyval) : M unit :=
  try_except
    (lat ← getitem telemetry "latitude-deg";
     lng ← getitem telemetry "longitude-deg";
     heading ← getitem telemetry "heading-deg";
     queue_to_ui_append (lat, lng, heading))
    is_KeyError
    (λ e, logger_error e).

(** One iteration of the [while True] loop of [pass_outgoing_cmd]. *)
Definition pass_outgoing_cmd_body : M unit :=
  '(cmd, arguments) ← queue_out_pop;
  if decide (cmd = "pos") then publish "map.position" arguments
  else if decide (cmd = "pid") then publish "map.pid" arguments
  else logger_warning ("Unknown command: " +:+ cmd +:+ ", ignoring").

Definition pass_outgoing_cmd_fuel (fuel : nat) : M unit :=
  try_except (while_True fuel pass_outgoing_cmd_body)
    is_IndexError (λ _, mret ()).

(** Every iteration that does not raise removes one element of
    [queue_out], so one more iteration than it holds elements reaches the
    [IndexError] that ends the loop (see [pass_outgoing_cmd_fuel_enough]
    below). *)
Definition pass_outgoing_cmd : M unit := λ w,
  pass_outgoing_cmd_fuel (S (length (items (queue_out w)))) w.

(** [asyncio.sleep(0.1)] hands control to the event loop, which runs
    [on_sim_telemetry] for the messages that arrived: [arrived]. *)
Definition sleep (arrived : list (gmap string pyval)) : M unit :=
  for_each on_sim_telemetry arrived.

(** [while self.is_running: ...].  Nothing clears [is_running], so the
    loop is followed for as many iterations as [schedule] has entries,
    the i-th entry being the telemetry delivered during the i-th sleep. *)
Fixpoint onJoin_loop (schedule : list (list (gmap string pyval))) : M unit :=
  match schedule with
  | [] => unfinished
  | arrived :: schedule' => λ w,
      if is_running w
      then (pass_outgoing_cmd ;; sleep arrived ;; onJoin_loop schedule') w
      else (Returned (), w)
  end.

Definition onJoin (schedule : list (list (gmap string pyval))) : M unit :=
  register "roundrobin" ;;
  subscribe "sim.telemetry" ;;
  (λ w, (Returned (), set_is_running true w)) ;;
  onJoin_loop schedule.

End MapComponent.

(** ** The presentation layer's write entry points *)

Module Locator.

(** [forceLocation(str, str)] *)
Definition force_location (lat lng : string) : M unit :=
  try_except (queue_out_append ("loc", [PyStr lat; PyStr lng]))
    is_IndexError (λ _, mret ()).

End Locator.

Module PIDManager.

(** [forcePID(float, float, float)] *)
Definition force_pid (kp ki kd : float) : M unit :=
  try_except (queue_out_append ("pid", [PyFloat kp; PyFloat ki; PyFloat kd]))
    is_IndexError (λ _, mret ()).

End PIDManager.

(** ** [join_to_router] and [main] *)

(** [runner.run(component_class)] is Autobahn's.  [runs] lists what the
    successive calls do: [None] when the call returns, [Some e] when it
    raises [e].  The result pairs the outcome of [join_to_router] with the
    number of calls of [runner.run] it made. *)
Fixpoint join_to_router_loop (runs : list (option exn)) (rerun : bool)
    (attempts : nat) : outcome unit * nat :=
  if rerun then
    match runs with
    | [] => (Unfinished, attempts)
    | None :: runs' => join_to_router_loop runs' false (S attempts)
    | Some e :: runs' =>
        if is_OSError e then join_to_router_loop runs' true (S attempts)
        else (Raised e, S attempts)
    end
  else (Returned (), attempts).

Definition join_to_router (runs : list (option exn)) : outcome unit * nat :=
  join_to_router_loop runs true 0.

(** The world [main] sets up: both queues are [deque(maxlen=1)]. *)
Definition main_world : world :=
  World (new_deque 1) (new_deque 1) false [] [] [] [] [].

(** The calls the session component may make on the shared deques. *)
Definition core_call (c : slot_name * slot_method) : bool :=
  match c with
  | (QueueOut, MPop) | (QueueToUi, MAppend) => true
  | _ => false
  end.

(** [m] makes only the calls of [core_call] on the shared deques, whatever
    the world it starts from. *)
Definition only_core_calls {A : Type} (m : M A) : Prop :=
  ∀ w, ∃ new, calls (m w).2 = calls w ++ new ∧ Forall (λ c, core_call c = true) new.

(** The number of commands handled between two worlds: every command that
    [pass_outgoing_cmd] takes out of [queue_out] leads to exactly one
    [publish] or to exactly one warning. *)
Definition handled_between (w w' : world) : nat :=
  (length (published w') + length (log w')) - (length (published w) + length (log w)).

(** The message of the specification's examples, and the same message
    without its heading. *)
Definition telemetry_example : gmap string pyval :=
  <["latitude-deg" := PyFloat 47.6%float]>
    (<["longitude-deg" := PyFloat (-122.3)%float]>
       (<["heading-deg" := PyFloat 90.0%float]> ∅)).

Definition telemetry_no_heading : gmap string pyval :=
  <["latitude-deg" := PyFloat 47.6%float]>
    (<["longitude-deg" := PyFloat (-122.3)%float]> ∅).

(** The gains of the specification's PID example, as [forcePID] packs them. *)
Definition pid_example : list pyval :=
  [PyFloat 0.5%float; PyFloat 0.1%float; PyFloat 0.05%float].

(** The world after the presentation layer called [forcePID(0.5, 0.1, 0.05)]
    on the fresh queues, and a world whose [queue_out] holds a command with
    the tag ['xyz']. *)
Definition pid_world : world :=
  (PIDManager.force_pid 0.5%float 0.1%float 0.05%float main_world).2.

Definition xyz_world : world :=
  World (new_deque 1) (Deque 1 [("xyz", [PyFloat 1.0%float])]) false [] [] [] [] [].

(** ** What a drain publishes and logs *)

(** The [publish] call a command leads to, if any, and the warning it
    leads to otherwise: the three arms of [pass_outgoing_cmd]. *)
Definition publish_of (c : command) : option (string * list pyval) :=
  if decide (c.1 = "pos") then Some ("map.position", c.2)
  else if decide (c.1 = "pid") then Some ("map.pid", c.2)
  else None.

Definition warning_of (c : command) : option log_record :=
  if decide (c.1 = "pos") then None
  else if decide (c.1 = "pid") then None
  else Some (LogWarning ("Unknown command: " +:+ c.1 +:+ ", ignoring")).

(** The first key, in the order [on_sim_telemetry] reads them, that a
    message lacks. *)
Definition first_missing (telemetry : gmap string pyval) : option string :=
  match telemetry !! "latitude-deg" with
  | None => Some "latitude-deg"
  | Some _ =>
      match telemetry !! "longitude-deg" with
      | None => Some "longitude-deg"
      | Some _ =>
          match telemetry !! "heading-deg" with
          | None => Some "heading-deg"
          | Some _ => None
          end
      end
  end.

(** The tuple [on_sim_telemetry] builds, when the message has the three
    keys. *)
Definition telemetry_sample (telemetry : gmap string pyval) : option sample :=
  lat ← telemetry !! "latitude-deg";
  lng ← telemetry !! "longitude-deg";
  heading ← telemetry !! "heading-deg";
  Some (lat, lng, heading).

(** The world one call of [pass_outgoing_cmd] leaves when [queue_out] held
    [cmds] (left to right): the commands are taken from the right end, so
    the publishes and warnings come in the order of [rev cmds]; the last
    [pop] is the one that found the deque empty. *)
Definition drained (cmds : list command) (w : world) : world :=
  World (queue_to_ui w) (Deque (maxlen (queue_out w)) []) (is_running w)
        (registered w) (subscriptions w)
        (published w ++ omap publish_of (rev cmds))
        (log w ++ omap warning_of (rev cmds))
        (calls w ++ replicate (S (length cmds)) (QueueOut, MPop)).

(** The session's own state is the same in [w] and [w']. *)
Definition same_session (w w' : world) : Prop :=
  is_running w' = is_running w ∧
  registered w' = registered w ∧
  subscriptions w' = subscriptions w.

(** Two messages with the three keys, with different values; a message
    with none of the keys; a message with only its latitude. *)
Definition telemetry_later : gmap string pyval :=
  <["latitude-deg" := PyFloat 47.7%float]>
    (<["longitude-deg" := PyFloat (-122.4)%float]>
       (<["heading-deg" := PyFloat 180.0%float]> ∅)).

Definition telemetry_only_latitude : gmap string pyval :=
  <["latitude-deg" := PyFloat 47.6%float]> ∅.

(** ** The drain with the presentation thread running beside it *)

(** [main] starts the presentation layer on a thread of its own, so its
    appends to [queue_out] can fall between two iterations of the loop of
    [pass_outgoing_cmd].  [writes] lists, iteration by iteration, the
    commands appended just before that iteration's [pop]. *)
Fixpoint while_True_interleaved (fuel : nat) (writes : list (list command)) : M unit :=
  match fuel with
  | 0 => unfinished
  | S fuel' =>
      for_each queue_out_append (hd [] writes) ;;
      MapComponent.pass_outgoing_cmd_body ;;
      while_True_interleaved fuel' (tl writes)
  end.

Definition pass_outgoing_cmd_interleaved (fuel : nat) (writes : list (list command)) : M unit :=
  try_except (while_True_interleaved fuel writes) is_IndexError (λ _, mret ()).

(** ** The presentation layer's objects *)

(** Exceptions on the presentation side: those of the session side, the
    [decimal.InvalidOperation] of [Decimal(text)], and the [TypeError] of a
    signal emitted with an argument that is not a float. *)
Inductive ui_exn : Type :=
  | PyExn (e : exn)
  | InvalidOperation
  | TypeError.

Inductive ui_outcome (A : Type) : Type :=
  | UiReturned (a : A)
  | UiRaised (e : ui_exn)
  | UiUnfinished.
Arguments UiReturned {A} _.
Arguments UiRaised {A} _.
Arguments UiUnfinished {A}.

(** The shared world, the attributes of the [Locator] and of the
    [PIDManager] ([None] for Python's [None]) and the signals emitted so
    far, each with its name and arguments.  [D] is the type of [Decimal]
    values. *)
Record ui_state (D : Type) : Type := UiState {
  shared : world;
  locator_lat : option D;
  locator_lng : option D;
  pid_kp : option D;
  pid_ki : option D;
  pid_kd : option D;
  emitted : list (string * list pyval)
}.
Arguments UiState {D} _ _ _ _ _ _ _.
Arguments shared {D} _.
Arguments locator_lat {D} _.
Arguments locator_lng {D} _.
Arguments pid_kp {D} _.
Arguments pid_ki {D} _.
Arguments pid_kd {D} _.
Arguments emitted {D} _.

Definition set_shared {D : Type} (w : world) (u : ui_state D) : ui_state D :=
  UiState w (locator_lat u) (locator_lng u) (pid_kp u) (pid_ki u) (pid_kd u) (emitted u).

Definition set_locator_lat {D : Type} (d : D) (u : ui_state D) : ui_state D :=
  UiState (shared u) (Some d) (locator_lng u) (pid_kp u) (pid_ki u) (pid_kd u) (emitted u).

Definition set_locator_lng {D : Type} (d : D) (u : ui_state D) : ui_state D :=
  UiState (shared u) (locator_lat u) (Some d) (pid_kp u) (pid_ki u) (pid_kd u) (emitted u).

Definition set_pid_kp {D : Type} (d : D) (u : ui_state D) : ui_state D :=
  UiState (shared u) (locator_lat u) (locator_lng u) (Some d) (pid_ki u) (pid_kd u) (emitted u).

Definition set_pid_ki {D : Type} (d : D) (u : ui_state D) : ui_state D :=
  UiState (shared u) (locator_lat u) (locator_lng u) (pid_kp u) (Some d) (pid_kd u) (emitted u).

Definition set_pid_kd {D : Type} (d : D) (u : ui_state D) : ui_state D :=
  UiState (shared u) (locator_lat u) (locator_lng u) (pid_kp u) (pid_ki u) (Some d) (emitted u).

Definition add_emitted {D : Type} (s : string * list pyval) (u : ui_state D) : ui_state D :=
  UiState (shared u) (locator_lat u) (locator_lng u) (pid_kp u) (pid_ki u) (pid_kd u)
          (emitted u ++ [s]).

Definition UI (D : Type) (A : Type) : Type := ui_state D → ui_outcome A * ui_state D.

#[export] Instance UI_ret {D : Type} : MRet (UI D) := λ A a u, (UiReturned a, u).

#[export] Instance UI_bind {D : Type} : MBind (UI D) := λ A B f m u,
  match m u with
  | (UiReturned a, u') => f a u'
  | (UiRaised e, u') => (UiRaised e, u')
  | (UiUnfinished, u') => (UiUnfinished, u')
  end.

Definition ui_try_except {D A : Type} (body : UI D A) (catches : ui_exn → bool)
    (handler : ui_exn → UI D A) : UI D A := λ u,
  match body u with
  | (UiRaised e, u') => if catches e then handler e u' else (UiRaised e, u')
  | r => r
  end.

(** [isinstance(e, IndexError)] on the presentation side. *)
Definition is_ui_IndexError (e : ui_exn) : bool :=
  match e with PyExn e' => is_IndexError e' | _ => false end.

(** An operation on the shared world, run from the presentation side. *)
Definition lift {D A : Type} (m : M A) : UI D A := λ u,
  match m (shared u) with
  | (Returned a, w) => (UiReturned a, set_shared w u)
  | (Raised e, w) => (UiRaised (PyExn e), set_shared w u)
  | (Unfinished, w) => (UiUnfinished, set_shared w u)
  end.

(** [signal.emit( *pos )] of a [pyqtSignal(float, float, float)]: PyQt
    refuses an argument that is not a float with a [TypeError]. *)
Definition emit {D : Type} (signal : string) (pos : sample) : UI D unit := λ u,
  match pos with
  | (PyFloat a, PyFloat b, PyFloat c) =>
      (UiReturned (), add_emitted (signal, [PyFloat a; PyFloat b; PyFloat c]) u)
  | _ => (UiRaised TypeError, u)
  end.

Module Presentation.
Section WithDecimal.
(** [Decimal(text)] belongs to the standard library: [Decimal text] is
    [None] where it raises [InvalidOperation]. *)
Context {D : Type} (Decimal : string → option D).

Definition to_Decimal (text : string) : UI D D := λ u,
  match Decimal text with
  | Some d => (UiReturned d, u)
  | None => (UiRaised InvalidOperation, u)
  end.

(** [Locator.set_location] *)
Definition set_location (lat lng : string) : UI D unit :=
  dlat ← to_Decimal lat;
  (λ u, (UiReturned (), set_locator_lat dlat u)) ;;
  dlng ← to_Decimal lng;
  (λ u, (UiReturned (), set_locator_lng dlng u)) ;;
  ui_try_except
    (pos ← lift queue_to_ui_pop;
     emit "locationUpdate" pos)
    is_ui_IndexError (λ _, mret ()).

(** [Locator.force_location], run on a presentation state. *)
Definition force_location (lat lng : string) : UI D unit :=
  lift (Locator.force_location lat lng).

(** [PIDManager.set_pid] *)
Definition set_pid (kp ki kd : string) : UI D unit :=
  dkp ← to_Decimal kp;
  (λ u, (UiReturned (), set_pid_kp dkp u)) ;;
  dki ← to_Decimal ki;
  (λ u, (UiReturned (), set_pid_ki dki u)) ;;
  dkd ← to_Decimal kd;
  (λ u, (UiReturned (), set_pid_kd dkd u)) ;;
  ui_try_except
    (pid ← lift queue_to_ui_pop;
     emit "pidUpdate" pid)
    is_ui_IndexError (λ _, mret ()).

(** [PIDManager.force_pid], run on a presentation state. *)
Definition force_pid (kp ki kd : float) : UI D unit :=
  lift (PIDManager.force_pid kp ki kd).

End WithDecimal.
End Presentation.

(** ** The two sides together *)

(** What can happen to the shared world: a telemetry message reaches the
    session, the session's loop runs its drain, or the QML layer calls one
    of the four slots. *)
Inductive action : Type :=
  | OnSimTelemetry (telemetry : gmap string pyval)
  | PassOutgoingCmd
  | SetLocation (lat lng : string)
  | ForceLocation (lat lng : string)
  | SetPID (kp ki kd : string)
  | ForcePID (kp ki kd : float).

Definition perform {D : Type} (Decimal : string → option D) (a : action) : UI D unit :=
  match a with
  | OnSimTelemetry telemetry => lift (MapComponent.on_sim_telemetry telemetry)
  | PassOutgoingCmd => lift MapComponent.pass_outgoing_cmd
  | SetLocation lat lng => Presentation.set_location Decimal lat lng
  | ForceLocation lat lng => Presentation.force_location lat lng
  | SetPID kp ki kd => Presentation.set_pid Decimal kp ki kd
  | ForcePID kp ki kd => Presentation.force_pid kp ki kd
  end.

(** The state after a sequence of actions, each one run to its end; an
    action that raises leaves its effects and the next one runs. *)
Fixpoint run_actions {D : Type} (Decimal : string → option D) (acts : list action)
    (u : ui_state D) : ui_state D :=
  match acts with
  | [] => u
  | a :: acts' => run_actions Decimal acts' (perform Decimal a u).2
  end.

(** The presentation state when [run_map_ui] has built its two objects. *)
Definition main_ui {D : Type} : ui_state D :=
  UiState main_world None None None None None [].

(** The calls the presentation layer may make on the shared deques. *)
Definition ui_call (c : slot_name * slot_method) : bool :=
  match c with
  | (QueueToUi, MPop) | (QueueOut, MAppend) => true
  | _ => false
  end.

Definition only_ui_calls {D A : Type} (m : UI D A) : Prop :=
  ∀ u, ∃ new,
    calls (shared (m u).2) = calls (shared u) ++ new ∧ Forall (λ c, ui_call c = true) new.

(** A stand-in for [Decimal] in the examples: it accepts the non-empty
    texts made of digits, ['.'] and ['-'] and keeps the text. *)
Definition example_Decimal (text : string) : option string :=
  if decide (text = "") then None
  else if forallb (λ c, bool_decide (c ∈ String.list_ascii_of_string "0123456789.-"))
            (String.list_ascii_of_string text)
       then Some text else None.

(** What one action can do to the shared world: the session's two
    operations, the presentation layer's two writes, the [pop] its two
    reading slots make once their texts are converted, or nothing (a text
    was refused). *)
Inductive shared_step : world → world → Prop :=
  | step_on_sim_telemetry telemetry w :
      shared_step w (MapComponent.on_sim_telemetry telemetry w).2
  | step_pass_outgoing_cmd w :
      shared_step w (MapComponent.pass_outgoing_cmd w).2
  | step_force_location lat lng w :
      shared_step w (Locator.force_location lat lng w).2
  | step_force_pid kp ki kd w :
      shared_step w (PIDManager.force_pid kp ki kd w).2
  | step_queue_to_ui_pop w :
      shared_step w (queue_to_ui_pop w).2
  | step_nothing w :
      shared_step w w.

(** The presentation state once the session has handled the message of
    the examples, and the tags the presentation layer writes. *)
Definition telemetry_ui : ui_state string :=
  set_shared (MapComponent.on_sim_telemetry telemetry_example main_world).2 main_ui.

Definition written_tag (c : command) : Prop := c.1 = "loc" ∨ c.1 = "pid".

(** ** The session beside a router that can fail and a presentation thread
       that writes *)

(** The calls the session makes on Autobahn. *)
Inductive autobahn_call : Type :=
  | CallRegister (invoke : string)
  | CallSubscribe (topic : string)
  | CallPublish (topic : string) (arguments : list pyval).

(** What can happen while the session's loop sleeps: a telemetry message
    is delivered to [on_sim_telemetry], the presentation thread appends a
    command to [queue_out] ([force_location], [force_pid]), or it pops
    [queue_to_ui] ([set_location], [set_pid], which catch the [IndexError]
    of an empty deque). *)
Inductive during_sleep : Type :=
  | Delivered (telemetry : gmap string pyval)
  | UiAppended (c : command)
  | UiPopped.

Module WithRouter.
Section Router.

(** [fails w c] is the exception the Autobahn call [c] raises when made in
    the world [w] (for instance [TransportLost] once the connection is
    gone), [None] when the call returns.  [MapComponent] above is the case
    where every call returns. *)
Variable fails : world → autobahn_call → option exn.

Definition autobahn (c : autobahn_call) (returns : M unit) : M unit := λ w,
  match fails w c with
  | Some e => (Raised e, w)
  | None => returns w
  end.

Definition publish (topic : string) (arguments : list pyval) : M unit :=
  autobahn (CallPublish topic arguments) (publish topic arguments).

Definition register (invoke : string) : M unit :=
  autobahn (CallRegister invoke) (register invoke).

Definition subscribe (topic : string) : M unit :=
  autobahn (CallSubscribe topic) (subscribe topic).

(** One iteration of the [while True] loop of [pass_outgoing_cmd]. *)
Definition pass_outgoing_cmd_body : M unit :=
  '(cmd, arguments) ← queue_out_pop;
  if decide (cmd = "pos") then publish "map.position" arguments
  else if decide (cmd = "pid") then publish "map.pid" arguments
  else logger_warning ("Unknown command: " +:+ cmd +:+ ", ignoring").

Definition pass_outgoing_cmd_fuel (fuel : nat) : M unit :=
  try_except (while_True fuel pass_outgoing_cmd_body)
    is_IndexError (λ _, mret ()).

Definition pass_outgoing_cmd : M unit := λ w,
  pass_outgoing_cmd_fuel (S (length (items (queue_out w)))) w.

(** What one event of a sleep does to the shared world. *)
Definition happen (ev : during_sleep) : M unit :=
  match ev with
  | Delivered telemetry => MapComponent.on_sim_telemetry telemetry
  | UiAppended c => queue_out_append c
  | UiPopped =>
      try_except (pos ← queue_to_ui_pop; mret ()) is_IndexError (λ _, mret ())
  end.

(** [asyncio.sleep(0.1)], with what happened meanwhile. *)
Definition sleep (events : list during_sleep) : M unit :=
  for_each happen events.

(** [while self.is_running: ...], followed for as many iterations as
    [schedule] has entries. *)
Fixpoint onJoin_loop (schedule : list (list during_sleep)) : M unit :=
  match schedule with
  | [] => unfinished
  | events :: schedule' => λ w,
      if is_running w
      then (pass_outgoing_cmd ;; sleep events ;; onJoin_loop schedule') w
      else (Returned (), w)
  end.

Definition onJoin (schedule : list (list during_sleep)) : M unit :=
  register "roundrobin" ;;
  subscribe "sim.telemetry" ;;
  (λ w, (Returned (), set_is_running true w)) ;;
  onJoin_loop schedule.

End Router.
End WithRouter.

(** A router on which every call returns, and one on which every
    [publish] raises [e]. *)
Definition router_up : world → autobahn_call → option exn := λ _ _, None.

Definition publish_raises (e : exn) : world → autobahn_call → option exn := λ _ c,
  match c with
  | CallPublish _ _ => Some e
  | _ => None
  end.

(** What a slot that held [held] holds after the events of one sleep: each
    append leaves the appended command alone in the slot. *)
Definition written_during (events : list during_sleep) (held : list command) : list command :=
  fold_left
    (λ q ev, match ev with UiAppended c => trim 1 (q ++ [c]) | _ => q end)
    events held.

(** What the loop publishes over the iterations of [schedule] when the
    slot holds [held] at the start: each iteration publishes what the slot
    holds, and the next one finds what was written during the sleep. *)
Fixpoint loop_publishes (held : list command) (schedule : list (list during_sleep))
    : list (string * list pyval) :=
  match schedule with
  | [] => []
  | events :: schedule' =>
      omap publish_of (rev held) ++ loop_publishes (written_during events []) schedule'
  end.

(** [m] leaves [is_running] as it finds it. *)
Definition keeps_is_running {A : Type} (m : M A) : Prop :=
  ∀ w, is_running (m w).2 = is_running w.

(** A publish of three gains on [map.pid], and a command as
    [force_location] or [force_pid] writes it. *)
Definition is_gains (p : string * list pyval) : Prop :=
  ∃ kp ki kd : float, p = ("map.pid", [PyFloat kp; PyFloat ki; PyFloat kd]).

Definition is_written (c : command) : Prop :=
  (∃ lat lng : string, c = ("loc", [PyStr lat; PyStr lng])) ∨
  (∃ kp ki kd : float, c = ("pid", [PyFloat kp; PyFloat ki; PyFloat kd])).

(** ** Properties of the slot *)

Section DequeFacts.
Context {A : Type}.
Implicit Types (d : deque A) (v : A) (vs : list A).

Lemma append_maxlen v d : maxlen (append v d) = maxlen d.
Proof. done. Qed.

Lemma append_slot_items v d :
  is_slot d → items (append v d) = [v].
Proof.
  intros [Hmax Hlen]. unfold append, trim. rewrite Hmax. simpl.
  destruct (items d) as [|x [|y l]]; simpl in *; [done | done | lia].
Qed.

Lemma append_is_slot v d : is_slot d → is_slot (append v d).
Proof.
  intros Hd. split.
  - rewrite append_maxlen. apply Hd.
  - rewrite append_slot_items by done. simpl. lia.
Qed.

Lemma appends_is_slot vs d : is_slot d → is_slot (appends vs d).
Proof.
  revert d. induction vs as [|v vs IH]; intros d Hd; simpl; [done|].
  apply IH, append_is_slot, Hd.
Qed.

Lemma appends_snoc vs v d : appends (vs ++ [v]) d = append v (appends vs d).
Proof. unfold appends. by rewrite fold_left_app. Qed.

Lemma new_deque_is_slot : is_slot (new_deque (A:=A) 1).
Proof. split; simpl; lia. Qed.

Lemma pop_singleton n v : pop (Deque n [v]) = Some (v, Deque n []).
Proof. done. Qed.

Lemma pop_empty n : pop (Deque (A:=A) n []) = None.
Proof. done. Qed.

Lemma slot_after_append v d :
  is_slot d → append v d = Deque 1 [v].
Proof.
  intros Hd. pose proof (append_slot_items v d Hd) as Hi.
  pose proof (append_maxlen v d) as Hm. destruct Hd as [Hmax _].
  destruct (append v d) as [m l]. simpl in *. congruence.
Qed.

End DequeFacts.

(** ** General facts on [pop] *)

Section PopFacts.
Context {A : Type}.
Implicit Types (d : deque A) (v : A).

Lemma pop_None d : pop d = None ↔ items d = [].
Proof.
  unfold pop. split.
  - destruct (rev (items d)) as [|x r] eqn:Hr; [|done].
    intros _. apply (f_equal (@rev A)) in Hr. by rewrite rev_involutive in Hr.
  - intros ->. done.
Qed.

Lemma pop_Some d v d' :
  pop d = Some (v, d') →
  items d = items d' ++ [v] ∧ maxlen d' = maxlen d.
Proof.
  unfold pop. destruct (rev (items d)) as [|x r] eqn:Hr; [done|].
  intros [= <- <-]. simpl. split; [|done].
  apply (f_equal (@rev A)) in Hr. by rewrite rev_involutive in Hr.
Qed.

Lemma pop_append v d : 1 ≤ maxlen d → ∃ d', pop (append v d) = Some (v, d').
Proof.
  intros Hm. unfold pop, append, trim. simpl.
  destruct (Nat.ltb_spec (maxlen d) (length (items d ++ [v]))) as [Hlt|Hge].
  - destruct (items d) as [|x l]; simpl in *.
    + lia.
    + rewrite rev_app_distr. simpl. eauto.
  - rewrite rev_app_distr. simpl. eauto.
Qed.

End PopFacts.

(** ** Latest-wins *)

(** C1.  On a slot created by [deque(maxlen=1)], after any run of
    [append] calls ending with [v] and no [pop] in between, the slot holds
    [v] and nothing else; the next [pop] returns [v]; and the slot that
    [pop] leaves behind is empty, so a later [pop] finds none of the
    earlier values (it raises [IndexError]). *)
Theorem latest_wins {A : Type} (d : deque A) (vs : list A) (v : A) :
  is_slot d →
  appends (vs ++ [v]) d = Deque 1 [v] ∧
  pop (appends (vs ++ [v]) d) = Some (v, Deque 1 []) ∧
  pop (Deque (A:=A) 1 []) = None.
Proof.
  intros Hd.
  assert (appends (vs ++ [v]) d = Deque 1 [v]) as ->.
  { rewrite appends_snoc. apply slot_after_append, appends_is_slot, Hd. }
  done.
Qed.

Lemma latest_wins_witness :
  appends ([10; 20] ++ [30]) (new_deque 1) = Deque 1 [30] ∧
  pop (appends ([10; 20] ++ [30]) (new_deque 1)) = Some (30, Deque 1 []) ∧
  pop (Deque (A:=nat) 1 []) = None.
Proof.
  apply (latest_wins (new_deque 1) [10; 20] 30).
  split; simpl; lia.
Defined.

(** ** Telemetry ingestion *)

Section Telemetry.
Import MapComponent.
Implicit Types (telemetry : gmap string pyval) (w : world).

Lemma getitem_Some telemetry key v w :
  telemetry !! key = Some v → getitem telemetry key w = (Returned v, w).
Proof. intros H. unfold getitem. by rewrite H. Qed.

Lemma getitem_None telemetry key w :
  telemetry !! key = None → getitem telemetry key w = (Raised (KeyError key), w).
Proof. intros H. unfold getitem. by rewrite H. Qed.

(** The first key, in the order the handler reads them, that [telemetry]
    lacks. *)
Lemma first_missing_key telemetry :
  telemetry !! "latitude-deg" = None ∨
  telemetry !! "longitude-deg" = None ∨
  telemetry !! "heading-deg" = None →
  ∃ key, telemetry !! key = None ∧
    ∀ w, on_sim_telemetry telemetry w = (Returned (), add_log (LogError (KeyError key)) w).
Proof.
  intros Hmiss. unfold on_sim_telemetry, try_except, mbind, M_bind, getitem.
  destruct (telemetry !! "latitude-deg") as [lat|] eqn:Hlat;
    [|by exists "latitude-deg"].
  destruct (telemetry !! "longitude-deg") as [lng|] eqn:Hlng;
    [|by exists "longitude-deg"].
  destruct (telemetry !! "heading-deg") as [heading|] eqn:Hhd;
    [|by exists "heading-deg"].
  by destruct Hmiss as [?|[?|?]].
Qed.

(** C4.  When the telemetry message lacks [latitude-deg], [longitude-deg]
    or [heading-deg], [on_sim_telemetry] returns normally, calls no method
    of either deque, leaves [queue_to_ui] as it was, and adds one error
    record to the log: the [KeyError] of a key the message lacks. *)
Theorem on_sim_telemetry_missing_key telemetry w :
  telemetry !! "latitude-deg" = None ∨
  telemetry !! "longitude-deg" = None ∨
  telemetry !! "heading-deg" = None →
  ∃ key w',
    on_sim_telemetry telemetry w = (Returned (), w') ∧
    telemetry !! key = None ∧
    log w' = log w ++ [LogError (KeyError key)] ∧
    calls w' = calls w ∧
    queue_to_ui w' = queue_to_ui w ∧
    queue_out w' = queue_out w ∧
    published w' = published w.
Proof.
  intros Hmiss. destruct (first_missing_key telemetry Hmiss) as (key & Hkey & Hrun).
  exists key, (add_log (LogError (KeyError key)) w). by rewrite Hrun.
Qed.

(** C5.  When the telemetry message has the three keys and [queue_to_ui]
    is the slot [main] created, [on_sim_telemetry] returns normally and the
    next [pop] on [queue_to_ui] returns the tuple [(lat, lng, heading)] of
    the three values, leaving the slot empty. *)
Theorem on_sim_telemetry_then_pop telemetry w (lat lng heading : pyval) :
  telemetry !! "latitude-deg" = Some lat →
  telemetry !! "longitude-deg" = Some lng →
  telemetry !! "heading-deg" = Some heading →
  is_slot (queue_to_ui w) →
  ∃ w',
    on_sim_telemetry telemetry w = (Returned (), w') ∧
    pop (queue_to_ui w') = Some ((lat, lng, heading), Deque 1 []).
Proof.
  intros Hlat Hlng Hhd Hslot.
  unfold on_sim_telemetry, try_except, mbind, M_bind, getitem.
  rewrite Hlat, Hlng, Hhd. simpl.
  eexists. split; [done|]. simpl.
  by rewrite (slot_after_append _ _ Hslot).
Qed.

End Telemetry.

Lemma on_sim_telemetry_missing_key_witness :
  ∃ key w',
    MapComponent.on_sim_telemetry telemetry_no_heading main_world = (Returned (), w') ∧
    telemetry_no_heading !! key = None ∧
    log w' = log main_world ++ [LogError (KeyError key)] ∧
    calls w' = calls main_world ∧
    queue_to_ui w' = queue_to_ui main_world ∧
    queue_out w' = queue_out main_world ∧
    published w' = published main_world.
Proof.
  apply (on_sim_telemetry_missing_key telemetry_no_heading main_world).
  right; right. vm_compute. reflexivity.
Defined.

Lemma on_sim_telemetry_then_pop_witness :
  ∃ w',
    MapComponent.on_sim_telemetry telemetry_example main_world = (Returned (), w') ∧
    pop (queue_to_ui w') =
      Some ((PyFloat 47.6%float, PyFloat (-122.3)%float, PyFloat 90.0%float), Deque 1 []).
Proof.
  apply (on_sim_telemetry_then_pop telemetry_example main_world).
  - vm_compute. reflexivity.
  - vm_compute. reflexivity.
  - vm_compute. reflexivity.
  - split; simpl; lia.
Defined.

(** ** Draining the outbound command slot *)

Section Drain.
Import MapComponent.
Implicit Types (w : world) (cmd : string) (arguments : list pyval).

Lemma pass_outgoing_cmd_body_empty w :
  items (queue_out w) = [] →
  pass_outgoing_cmd_body w = (Raised IndexError, add_call (QueueOut, MPop) w).
Proof.
  intros Hempty. apply pop_None in Hempty.
  unfold pass_outgoing_cmd_body, mbind, M_bind, queue_out_pop. by rewrite Hempty.
Qed.

Lemma pass_outgoing_cmd_body_step w c d :
  pop (queue_out w) = Some (c, d) →
  ∃ w1,
    pass_outgoing_cmd_body w = (Returned (), w1) ∧
    queue_out w1 = d ∧
    queue_to_ui w1 = queue_to_ui w ∧
    length (published w1) + length (log w1) = S (length (published w) + length (log w)).
Proof.
  intros Hpop. destruct c as [cmd arguments].
  unfold pass_outgoing_cmd_body, mbind, M_bind, queue_out_pop. rewrite Hpop.
  repeat case_decide; eexists; (split; [reflexivity|]); simpl;
    rewrite ?length_app; simpl; repeat split; lia.
Qed.

(** The loop runs until [queue_out] is empty: with more iterations allowed
    than the deque holds elements it ends by [IndexError], having handled
    every element. *)
Lemma while_True_drains (n : nat) : ∀ w fuel,
  length (items (queue_out w)) = n →
  n < fuel →
  ∃ w',
    while_True fuel pass_outgoing_cmd_body w = (Raised IndexError, w') ∧
    items (queue_out w') = [] ∧
    maxlen (queue_out w') = maxlen (queue_out w) ∧
    queue_to_ui w' = queue_to_ui w ∧
    length (published w') + length (log w') = length (published w) + length (log w) + n.
Proof.
  induction n as [|n IH]; intros w fuel Hlen Hfuel;
    (destruct fuel as [|fuel]; [lia|]); simpl; unfold mbind, M_bind.
  - apply nil_length_inv in Hlen.
    rewrite (pass_outgoing_cmd_body_empty w Hlen).
    exists (add_call (QueueOut, MPop) w). simpl. repeat split; [done | lia].
  - destruct (pop (queue_out w)) as [[c d]|] eqn:Hpop.
    + destruct (pass_outgoing_cmd_body_step w c d Hpop)
        as (w1 & -> & Hq & Hui & Hcount).
      destruct (pop_Some _ _ _ Hpop) as [Hitems Hmax].
      assert (length (items (queue_out w1)) = n) as Hlen1.
      { rewrite Hq. rewrite Hitems, length_app in Hlen. simpl in Hlen. lia. }
      destruct (IH w1 fuel Hlen1 ltac:(lia)) as (w' & Hrun & He & Hm & Hu & Hc).
      exists w'. rewrite Hrun. repeat split; [done | congruence | congruence | lia].
    + apply pop_None in Hpop. rewrite Hpop in Hlen. done.
Qed.

(** [pass_outgoing_cmd] always returns; the fuel its model computes is
    never used up, and more fuel changes nothing about what is handled. *)
Lemma pass_outgoing_cmd_fuel_enough w fuel :
  length (items (queue_out w)) < fuel →
  ∃ w',
    pass_outgoing_cmd_fuel fuel w = (Returned (), w') ∧
    items (queue_out w') = [] ∧
    maxlen (queue_out w') = maxlen (queue_out w) ∧
    queue_to_ui w' = queue_to_ui w ∧
    handled_between w w' = length (items (queue_out w)).
Proof.
  intros Hfuel.
  destruct (while_True_drains _ w fuel eq_refl Hfuel) as (w' & Hrun & He & Hm & Hu & Hc).
  exists w'. unfold pass_outgoing_cmd_fuel, try_except. rewrite Hrun. simpl.
  unfold handled_between. repeat split; [done..|lia].
Qed.

Lemma pass_outgoing_cmd_returns w :
  ∃ w',
    pass_outgoing_cmd w = (Returned (), w') ∧
    items (queue_out w') = [] ∧
    maxlen (queue_out w') = maxlen (queue_out w) ∧
    queue_to_ui w' = queue_to_ui w ∧
    handled_between w w' = length (items (queue_out w)).
Proof. unfold pass_outgoing_cmd. apply pass_outgoing_cmd_fuel_enough. lia. Qed.

(** The drain run alone: on the slot [main] created, one call of [pass_outgoing_cmd]
    returns normally having handled no command when the slot was empty and
    exactly one when it was not; it never handles more than one, and it
    leaves the slot empty. *)
Theorem pass_outgoing_cmd_at_most_one w :
  is_slot (queue_out w) →
  ∃ w',
    pass_outgoing_cmd w = (Returned (), w') ∧
    (items (queue_out w) = [] → handled_between w w' = 0) ∧
    (items (queue_out w) ≠ [] → handled_between w w' = 1) ∧
    handled_between w w' ≤ 1 ∧
    items (queue_out w') = [].
Proof.
  intros [_ Hlen].
  destruct (pass_outgoing_cmd_returns w) as (w' & Hrun & He & _ & _ & Hc).
  exists w'. rewrite Hc. repeat split; [done| | |lia|done].
  - by intros ->.
  - intros Hne. destruct (items (queue_out w)) as [|c [|c' l]]; simpl in *; [done|done|lia].
Qed.

End Drain.

(** ** Dispatch by tag *)

Section Dispatch.
Import MapComponent.
Implicit Types (w : world) (cmd : string) (arguments : list pyval).

(** What one call does when [queue_out] holds exactly one command: the
    first iteration takes and dispatches it, the second finds the deque
    empty. *)
Lemma pass_outgoing_cmd_single w cmd arguments :
  items (queue_out w) = [(cmd, arguments)] →
  pass_outgoing_cmd w =
    let w1 := set_queue_out (Deque (maxlen (queue_out w)) [])
                (add_call (QueueOut, MPop) w) in
    let w2 :=
      if decide (cmd = "pos") then add_published ("map.position", arguments) w1
      else if decide (cmd = "pid") then add_published ("map.pid", arguments) w1
      else add_log (LogWarning ("Unknown command: " +:+ cmd +:+ ", ignoring")) w1 in
    (Returned (), add_call (QueueOut, MPop) w2).
Proof.
  intros Hitems. unfold pass_outgoing_cmd. rewrite Hitems.
  destruct w as [qui [m its] run reg subs pub lg cs]. simpl in Hitems. subst its.
  unfold pass_outgoing_cmd_fuel, try_except, pass_outgoing_cmd_body. simpl.
  unfold mbind, M_bind, queue_out_pop. simpl.
  repeat case_decide; reflexivity.
Qed.

(** C6.  When [queue_out] holds the command [('pid', arguments)], one call
    of [pass_outgoing_cmd] returns normally, makes exactly one [publish],
    to [map.pid] with [arguments], logs nothing and leaves [queue_out]
    empty. *)
Theorem pass_outgoing_cmd_pid w arguments :
  items (queue_out w) = [("pid", arguments)] →
  ∃ w',
    pass_outgoing_cmd w = (Returned (), w') ∧
    published w' = published w ++ [("map.pid", arguments)] ∧
    log w' = log w ∧
    items (queue_out w') = [].
Proof.
  intros Hitems. rewrite (pass_outgoing_cmd_single w _ _ Hitems).
  eexists. split; [reflexivity|]. done.
Qed.

(** C7.  When [queue_out] holds a command whose tag is neither ['pos'] nor
    ['pid'], one call of [pass_outgoing_cmd] returns normally, publishes
    nothing, logs one warning naming the tag and leaves [queue_out] empty. *)
Theorem pass_outgoing_cmd_unknown w cmd arguments :
  cmd ≠ "pos" →
  cmd ≠ "pid" →
  items (queue_out w) = [(cmd, arguments)] →
  ∃ w',
    pass_outgoing_cmd w = (Returned (), w') ∧
    published w' = published w ∧
    log w' = log w ++ [LogWarning ("Unknown command: " +:+ cmd +:+ ", ignoring")] ∧
    items (queue_out w') = [].
Proof.
  intros Hpos Hpid Hitems. rewrite (pass_outgoing_cmd_single w _ _ Hitems).
  eexists. split; [reflexivity|]. simpl. by repeat case_decide.
Qed.

(** C8.  On an empty [queue_out] the [IndexError] of [pop] stays inside
    [pass_outgoing_cmd]: the call returns normally, publishes nothing, logs
    nothing and leaves both deques as they were. *)
Theorem pass_outgoing_cmd_empty w :
  items (queue_out w) = [] →
  ∃ w',
    pass_outgoing_cmd w = (Returned (), w') ∧
    published w' = published w ∧
    log w' = log w ∧
    queue_out w' = queue_out w ∧
    queue_to_ui w' = queue_to_ui w.
Proof.
  intros Hitems. unfold pass_outgoing_cmd. rewrite Hitems. simpl.
  unfold pass_outgoing_cmd_fuel, try_except. simpl. unfold mbind, M_bind.
  rewrite (pass_outgoing_cmd_body_empty w Hitems). simpl.
  eexists. split; [reflexivity|]. done.
Qed.

(** A drain right after the write: [force_location] puts a command tagged ['loc'] into [queue_out];
    the next [pass_outgoing_cmd] matches neither arm, logs it as unknown,
    publishes nothing and leaves [queue_out] empty. *)
Theorem force_location_is_discarded w (lat lng : string) :
  is_slot (queue_out w) →
  ∃ w1 w2,
    Locator.force_location lat lng w = (Returned (), w1) ∧
    items (queue_out w1) = [("loc", [PyStr lat; PyStr lng])] ∧
    pass_outgoing_cmd w1 = (Returned (), w2) ∧
    published w2 = published w ∧
    log w2 = log w ++ [LogWarning "Unknown command: loc, ignoring"] ∧
    items (queue_out w2) = [].
Proof.
  intros Hslot.
  set (w1 := set_queue_out (append ("loc", [PyStr lat; PyStr lng]) (queue_out w))
               (add_call (QueueOut, MAppend) w)).
  assert (items (queue_out w1) = [("loc", [PyStr lat; PyStr lng])]) as Hitems.
  { simpl. by apply append_slot_items. }
  exists w1. eexists. split; [reflexivity|]. split; [exact Hitems|].
  rewrite (pass_outgoing_cmd_single _ _ _ Hitems).
  split; [reflexivity|]. done.
Qed.

End Dispatch.

Lemma pass_outgoing_cmd_at_most_one_witness :
  ∃ w',
    MapComponent.pass_outgoing_cmd pid_world = (Returned (), w') ∧
    (items (queue_out pid_world) = [] → handled_between pid_world w' = 0) ∧
    (items (queue_out pid_world) ≠ [] → handled_between pid_world w' = 1) ∧
    handled_between pid_world w' ≤ 1 ∧
    items (queue_out w') = [].
Proof.
  apply (pass_outgoing_cmd_at_most_one pid_world).
  split; simpl; lia.
Defined.

Lemma pass_outgoing_cmd_pid_witness :
  ∃ w',
    MapComponent.pass_outgoing_cmd pid_world = (Returned (), w') ∧
    published w' = published pid_world ++ [("map.pid", pid_example)] ∧
    log w' = log pid_world ∧
    items (queue_out w') = [].
Proof.
  apply (pass_outgoing_cmd_pid pid_world pid_example).
  reflexivity.
Defined.

Lemma pass_outgoing_cmd_unknown_witness :
  ∃ w',
    MapComponent.pass_outgoing_cmd xyz_world = (Returned (), w') ∧
    published w' = published xyz_world ∧
    log w' = log xyz_world ++ [LogWarning ("Unknown command: " +:+ "xyz" +:+ ", ignoring")] ∧
    items (queue_out w') = [].
Proof.
  apply (pass_outgoing_cmd_unknown xyz_world "xyz" [PyFloat 1.0%float]).
  - discriminate.
  - discriminate.
  - reflexivity.
Defined.

Lemma pass_outgoing_cmd_empty_witness :
  ∃ w',
    MapComponent.pass_outgoing_cmd main_world = (Returned (), w') ∧
    published w' = published main_world ∧
    log w' = log main_world ∧
    queue_out w' = queue_out main_world ∧
    queue_to_ui w' = queue_to_ui main_world.
Proof.
  apply (pass_outgoing_cmd_empty main_world).
  reflexivity.
Defined.

Lemma force_location_is_discarded_witness :
  ∃ w1 w2,
    Locator.force_location "47.6" "-122.3" main_world = (Returned (), w1) ∧
    items (queue_out w1) = [("loc", [PyStr "47.6"; PyStr "-122.3"])] ∧
    MapComponent.pass_outgoing_cmd w1 = (Returned (), w2) ∧
    published w2 = published main_world ∧
    log w2 = log main_world ++ [LogWarning "Unknown command: loc, ignoring"] ∧
    items (queue_out w2) = [].
Proof.
  apply (force_location_is_discarded main_world "47.6" "-122.3").
  split; simpl; lia.
Defined.

(** ** Who calls what on the shared deques *)

Section SlotDiscipline.
Import MapComponent.

Lemma only_core_calls_silent {A : Type} (m : M A) :
  (∀ w, calls (m w).2 = calls w) → only_core_calls m.
Proof.
  intros Hm w. exists []. rewrite Hm, app_nil_r. by split.
Qed.

Lemma only_core_calls_ret {A : Type} (a : A) : only_core_calls (mret a).
Proof. by apply only_core_calls_silent. Qed.

Lemma only_core_calls_bind {A B : Type} (m : M A) (f : A → M B) :
  only_core_calls m → (∀ a, only_core_calls (f a)) → only_core_calls (m ≫= f).
Proof.
  intros Hm Hf w. unfold mbind, M_bind.
  destruct (Hm w) as (new1 & Hcalls1 & Hnew1).
  destruct (m w) as [[a| |] w1]; simpl in *; [|by exists new1..].
  destruct (Hf a w1) as (new2 & Hcalls2 & Hnew2).
  exists (new1 ++ new2). rewrite Hcalls2, Hcalls1, app_assoc.
  split; [done|]. by apply Forall_app.
Qed.

Lemma only_core_calls_try_except {A : Type} (body : M A) catches handler :
  only_core_calls body → (∀ e, only_core_calls (handler e)) →
  only_core_calls (try_except body catches handler).
Proof.
  intros Hb Hh w. unfold try_except.
  destruct (Hb w) as (new1 & Hcalls1 & Hnew1).
  destruct (body w) as [[a|e|] w1]; simpl in *; [by exists new1| |by exists new1].
  destruct (catches e); [|by exists new1].
  destruct (Hh e w1) as (new2 & Hcalls2 & Hnew2).
  exists (new1 ++ new2). rewrite Hcalls2, Hcalls1, app_assoc.
  split; [done|]. by apply Forall_app.
Qed.

Lemma only_core_calls_getitem telemetry key : only_core_calls (getitem telemetry key).
Proof. apply only_core_calls_silent. intros w. unfold getitem. by case_match. Qed.

Lemma only_core_calls_queue_to_ui_append v : only_core_calls (queue_to_ui_append v).
Proof. intros w. exists [(QueueToUi, MAppend)]. split; [done|]. by repeat constructor. Qed.

Lemma only_core_calls_queue_out_pop : only_core_calls queue_out_pop.
Proof.
  intros w. exists [(QueueOut, MPop)]. unfold queue_out_pop.
  split; [|by repeat constructor].
  by destruct (pop (queue_out w)) as [[c d]|].
Qed.

Lemma only_core_calls_while_True fuel body :
  only_core_calls body → only_core_calls (while_True fuel body).
Proof.
  intros Hb. induction fuel as [|fuel IH]; simpl.
  - by apply only_core_calls_silent.
  - by apply only_core_calls_bind.
Qed.

Lemma only_core_calls_for_each {A : Type} (f : A → M unit) xs :
  (∀ x, only_core_calls (f x)) → only_core_calls (for_each f xs).
Proof.
  intros Hf. induction xs as [|x xs IH]; simpl.
  - apply only_core_calls_ret.
  - by apply only_core_calls_bind.
Qed.

Lemma only_core_calls_on_sim_telemetry telemetry :
  only_core_calls (on_sim_telemetry telemetry).
Proof.
  apply only_core_calls_try_except; [|by intros e; apply only_core_calls_silent].
  repeat (apply only_core_calls_bind; [apply only_core_calls_getitem|intros ?]).
  apply only_core_calls_queue_to_ui_append.
Qed.

Lemma only_core_calls_pass_outgoing_cmd_body : only_core_calls pass_outgoing_cmd_body.
Proof.
  apply only_core_calls_bind; [apply only_core_calls_queue_out_pop|].
  intros [cmd arguments]. repeat case_decide; by apply only_core_calls_silent.
Qed.

Lemma only_core_calls_pass_outgoing_cmd : only_core_calls pass_outgoing_cmd.
Proof.
  intros w. unfold pass_outgoing_cmd.
  apply only_core_calls_try_except; [|intros e; apply only_core_calls_ret].
  apply only_core_calls_while_True, only_core_calls_pass_outgoing_cmd_body.
Qed.

Lemma only_core_calls_onJoin_loop schedule : only_core_calls (onJoin_loop schedule).
Proof.
  induction schedule as [|arrived schedule IH]; simpl.
  - by apply only_core_calls_silent.
  - intros w. destruct (is_running w).
    + apply only_core_calls_bind; [apply only_core_calls_pass_outgoing_cmd|intros _].
      apply only_core_calls_bind; [|done].
      apply only_core_calls_for_each, only_core_calls_on_sim_telemetry.
    + exists []. simpl. rewrite app_nil_r. by split.
Qed.

(** C9.  Whatever the world they start from, the telemetry handler, the
    command drain and the session's periodic loop (with any telemetry
    arriving during its sleeps) call nothing on the shared deques but
    [queue_out.pop] and [queue_to_ui.append]. *)
Theorem core_pops_queue_out_appends_queue_to_ui :
  (∀ telemetry, only_core_calls (on_sim_telemetry telemetry)) ∧
  only_core_calls pass_outgoing_cmd ∧
  (∀ schedule, only_core_calls (onJoin schedule)).
Proof.
  split; [apply only_core_calls_on_sim_telemetry|].
  split; [apply only_core_calls_pass_outgoing_cmd|].
  intros schedule. unfold onJoin.
  repeat (apply only_core_calls_bind; [by apply only_core_calls_silent|intros _]).
  apply only_core_calls_onJoin_loop.
Qed.

(** The presentation layer's entry points are on the other side: their
    append to [queue_out] is not a call of the session component. *)
Lemma force_location_not_core lat lng :
  ¬ only_core_calls (Locator.force_location lat lng).
Proof.
  intros H. destruct (H main_world) as (new & Hcalls & Hnew).
  cbv in Hcalls. subst new.
  apply Forall_inv in Hnew. simpl in Hnew. discriminate Hnew.
Qed.

End SlotDiscipline.

(** ** The reconnect loop *)

Section Reconnect.
Implicit Types (failures : list exn) (rest : list (option exn)).

Lemma join_to_router_loop_retries failures rest (attempts : nat) :
  Forall (λ e, is_OSError e = true) failures →
  join_to_router_loop ((Some <$> failures) ++ None :: rest) true attempts =
    (Returned (), S (length failures + attempts)).
Proof.
  intros Hfail. revert attempts.
  induction Hfail as [|e failures He _ IH]; intros attempts; simpl.
  - by destruct rest.
  - rewrite He, IH. do 2 f_equal. lia.
Qed.

(** C3.  When the first [n] calls of [runner.run] raise an [OSError]
    (connection refused, name resolution, socket error) and the next one
    returns, [join_to_router] returns normally after exactly [n + 1] calls,
    for every [n]; what [runner.run] would do after that is never asked. *)
Theorem join_to_router_retries failures rest :
  Forall (λ e, is_OSError e = true) failures →
  join_to_router ((Some <$> failures) ++ None :: rest) =
    (Returned (), length failures + 1).
Proof.
  intros Hfail. unfold join_to_router.
  rewrite join_to_router_loop_retries by done. do 2 f_equal. lia.
Qed.

(** X13.  While every call of [runner.run] fails with an [OSError] the
    loop goes on, one call after the other: after any number of failures
    [join_to_router] has neither returned nor raised, and has made as many
    calls as there were failures. *)
Lemma join_to_router_keeps_retrying failures :
  Forall (λ e, is_OSError e = true) failures →
  join_to_router (Some <$> failures) = (Unfinished, length failures).
Proof.
  intros Hfail. unfold join_to_router.
  assert (∀ k, join_to_router_loop (Some <$> failures) true k
               = (Unfinished, length failures + k)) as H.
  { induction Hfail as [|e failures He _ IH]; intros k; simpl; [done|].
    rewrite He, IH. f_equal. lia. }
  rewrite H. f_equal. lia.
Qed.

(** An exception outside [OSError] is not caught. *)
Lemma join_to_router_propagates e rest :
  is_OSError e = false →
  join_to_router (Some e :: rest) = (Raised e, 1).
Proof. intros He. unfold join_to_router. simpl. by rewrite He. Qed.

End Reconnect.

Lemma join_to_router_retries_witness :
  join_to_router
    ((Some <$> [ConnectionRefusedError; ConnectionRefusedError; ConnectionRefusedError])
       ++ None :: []) =
    (Returned (), length [ConnectionRefusedError; ConnectionRefusedError;
                          ConnectionRefusedError] + 1).
Proof.
  apply (join_to_router_retries
           [ConnectionRefusedError; ConnectionRefusedError; ConnectionRefusedError] []).
  repeat constructor.
Defined.

(** ** The drain, for any content of [queue_out] *)

Section DrainAnyContent.
Import MapComponent.
Implicit Types (w : world) (c : command) (cmds : list command).

Lemma pass_outgoing_cmd_body_exact w c d :
  pop (queue_out w) = Some (c, d) →
  pass_outgoing_cmd_body w =
    (Returned (),
     World (queue_to_ui w) d (is_running w) (registered w) (subscriptions w)
           (published w ++ option_list (publish_of c))
           (log w ++ option_list (warning_of c))
           (calls w ++ [(QueueOut, MPop)])).
Proof.
  intros Hpop. destruct c as [cmd arguments].
  unfold pass_outgoing_cmd_body, mbind, M_bind, queue_out_pop. rewrite Hpop.
  unfold publish_of, warning_of. simpl.
  repeat case_decide; simpl; unfold publish, logger_warning, add_published, add_log;
    simpl; by rewrite ?app_nil_r.
Qed.

Lemma while_True_drained (n : nat) : ∀ w fuel,
  length (items (queue_out w)) = n →
  n < fuel →
  while_True fuel pass_outgoing_cmd_body w =
    (Raised IndexError, drained (items (queue_out w)) w).
Proof.
  induction n as [|n IH]; intros w fuel Hlen Hfuel;
    (destruct fuel as [|fuel]; [lia|]); simpl; unfold mbind, M_bind.
  - apply nil_length_inv in Hlen.
    rewrite (pass_outgoing_cmd_body_empty w Hlen), Hlen.
    unfold drained, add_call. simpl. rewrite !app_nil_r.
    destruct w as [qui [m its] run reg subs pub lg cs]. simpl in *. by subst its.
  - destruct (pop (queue_out w)) as [[c d]|] eqn:Hpop.
    + rewrite (pass_outgoing_cmd_body_exact w c d Hpop).
      destruct (pop_Some _ _ _ Hpop) as [Hitems Hmax].
      rewrite Hitems, length_app in Hlen. simpl in Hlen.
      rewrite IH by (simpl; lia). rewrite Hitems. unfold drained. simpl.
      rewrite rev_app_distr, length_app, Hmax. simpl.
      rewrite <- !app_assoc. repeat f_equal.
      * by destruct (publish_of c).
      * by destruct (warning_of c).
      * by rewrite Nat.add_1_r.
    + apply pop_None in Hpop. rewrite Hpop in Hlen. done.
Qed.

Lemma pass_outgoing_cmd_drained w :
  pass_outgoing_cmd w = (Returned (), drained (items (queue_out w)) w).
Proof.
  unfold pass_outgoing_cmd, pass_outgoing_cmd_fuel, try_except.
  by rewrite (while_True_drained _ w _ eq_refl) by lia.
Qed.

(** With every [publish] returning: whatever [queue_out] holds, and
    whatever its bound, one call of [pass_outgoing_cmd] leaves it empty,
    and the publishes and the warnings come newest command first. *)
Theorem pass_outgoing_cmd_newest_first w :
  ∃ w',
    pass_outgoing_cmd w = (Returned (), w') ∧
    published w' = published w ++ omap publish_of (rev (items (queue_out w))) ∧
    log w' = log w ++ omap warning_of (rev (items (queue_out w))) ∧
    items (queue_out w') = [] ∧
    maxlen (queue_out w') = maxlen (queue_out w) ∧
    queue_to_ui w' = queue_to_ui w ∧
    is_running w' = is_running w ∧
    registered w' = registered w ∧
    subscriptions w' = subscriptions w.
Proof. eexists. split; [apply pass_outgoing_cmd_drained|]. done. Qed.

(** X2.  When [queue_out] holds the command [('pos', arguments)], one call
    of [pass_outgoing_cmd] makes exactly one [publish], to [map.position]
    with [arguments], logs nothing and leaves [queue_out] empty. *)
Theorem pass_outgoing_cmd_pos w (arguments : list pyval) :
  items (queue_out w) = [("pos", arguments)] →
  ∃ w',
    pass_outgoing_cmd w = (Returned (), w') ∧
    published w' = published w ++ [("map.position", arguments)] ∧
    log w' = log w ∧
    items (queue_out w') = [].
Proof.
  intros Hitems. eexists. split; [apply pass_outgoing_cmd_drained|].
  rewrite Hitems. simpl. by rewrite app_nil_r.
Qed.

End DrainAnyContent.

(** A deque bounded by 2 that holds two commands: the one appended last is
    published first. *)
Example pass_outgoing_cmd_backlog_example :
  published
    (MapComponent.pass_outgoing_cmd
       (World (new_deque 1)
              (Deque 2 [("pid", [PyFloat 1.0%float]); ("pos", [PyFloat 2.0%float])])
              false [] [] [] [] [])).2 =
  [("map.position", [PyFloat 2.0%float]); ("map.pid", [PyFloat 1.0%float])].
Proof. reflexivity. Qed.

Lemma pass_outgoing_cmd_pos_witness :
  ∃ w',
    MapComponent.pass_outgoing_cmd
      (World (new_deque 1) (Deque 1 [("pos", [PyFloat 47.6%float; PyFloat (-122.3)%float])])
             false [] [] [] [] []) = (Returned (), w') ∧
    published w' = [] ++ [("map.position", [PyFloat 47.6%float; PyFloat (-122.3)%float])] ∧
    log w' = [] ∧
    items (queue_out w') = [].
Proof.
  apply (pass_outgoing_cmd_pos
           (World (new_deque 1)
                  (Deque 1 [("pos", [PyFloat 47.6%float; PyFloat (-122.3)%float])])
                  false [] [] [] [] [])
           [PyFloat 47.6%float; PyFloat (-122.3)%float]).
  reflexivity.
Defined.

(** ** The telemetry handler, for any message *)

Section TelemetryAnyMessage.
Import MapComponent.
Implicit Types (telemetry : gmap string pyval) (w : world) (s : sample).

Lemma on_sim_telemetry_sample telemetry s w :
  telemetry_sample telemetry = Some s →
  on_sim_telemetry telemetry w =
    (Returned (),
     set_queue_to_ui (append s (queue_to_ui w)) (add_call (QueueToUi, MAppend) w)).
Proof.
  unfold telemetry_sample, on_sim_telemetry, try_except, getitem. intros Hs.
  destruct (telemetry !! "latitude-deg") as [lat|]; [|done].
  destruct (telemetry !! "longitude-deg") as [lng|]; [|done].
  destruct (telemetry !! "heading-deg") as [heading|]; [|done].
  simpl in Hs. by injection Hs as <-.
Qed.

Lemma on_sim_telemetry_first_missing telemetry key w :
  first_missing telemetry = Some key →
  on_sim_telemetry telemetry w = (Returned (), add_log (LogError (KeyError key)) w).
Proof.
  unfold first_missing, on_sim_telemetry, try_except, getitem. intros Hkey.
  destruct (telemetry !! "latitude-deg") as [lat|]; [|by injection Hkey as <-].
  destruct (telemetry !! "longitude-deg") as [lng|]; [|by injection Hkey as <-].
  destruct (telemetry !! "heading-deg") as [heading|]; [|by injection Hkey as <-].
  done.
Qed.

Lemma sample_or_missing telemetry :
  (∃ s, telemetry_sample telemetry = Some s) ∨ (∃ key, first_missing telemetry = Some key).
Proof.
  unfold telemetry_sample, first_missing.
  destruct (telemetry !! "latitude-deg") as [lat|]; [|by right; eexists].
  destruct (telemetry !! "longitude-deg") as [lng|]; [|by right; eexists].
  destruct (telemetry !! "heading-deg") as [heading|]; [|by right; eexists].
  left. by eexists.
Qed.

Lemma on_sim_telemetry_frame telemetry w :
  ∃ w',
    on_sim_telemetry telemetry w = (Returned (), w') ∧
    queue_out w' = queue_out w ∧
    published w' = published w ∧
    same_session w w' ∧
    (is_slot (queue_to_ui w) → is_slot (queue_to_ui w')).
Proof.
  destruct (sample_or_missing telemetry) as [[s Hs]|[key Hkey]].
  - rewrite (on_sim_telemetry_sample _ _ _ Hs). eexists. split; [done|].
    split; [done|]. split; [done|]. split; [by split|].
    intros Hslot. simpl. by apply append_is_slot.
  - rewrite (on_sim_telemetry_first_missing _ _ _ Hkey). eexists. split; [done|].
    split; [done|]. split; [done|]. split; [by split|]. done.
Qed.

(** X4.  [on_sim_telemetry] returns normally for every message, with or
    without the three keys, and touches neither [queue_out], nor what was
    published, nor the session's own state. *)
Theorem on_sim_telemetry_never_raises telemetry w :
  ∃ w',
    on_sim_telemetry telemetry w = (Returned (), w') ∧
    queue_out w' = queue_out w ∧
    published w' = published w ∧
    is_running w' = is_running w ∧
    registered w' = registered w ∧
    subscriptions w' = subscriptions w.
Proof.
  destruct (on_sim_telemetry_frame telemetry w) as (w' & Hrun & Hq & Hp & (Hr & Hreg & Hsub) & _).
  by exists w'.
Qed.

(** X5.  The keys are read in the order [latitude-deg], [longitude-deg],
    [heading-deg] and the first missing one ends the handler: exactly one
    error is logged, the [KeyError] of that key, however many keys the
    message lacks, and nothing else changes. *)
Theorem on_sim_telemetry_logs_first_missing telemetry key w :
  first_missing telemetry = Some key →
  on_sim_telemetry telemetry w = (Returned (), add_log (LogError (KeyError key)) w) ∧
  log (add_log (LogError (KeyError key)) w) = log w ++ [LogError (KeyError key)].
Proof.
  intros Hkey. split; [by apply on_sim_telemetry_first_missing|done].
Qed.

(** X6.  Only the three keys matter: a message with one more key, other
    than those three, is handled exactly as the message without it. *)
Theorem on_sim_telemetry_ignores_other_keys telemetry (key : string) (v : pyval) w :
  key ≠ "latitude-deg" →
  key ≠ "longitude-deg" →
  key ≠ "heading-deg" →
  on_sim_telemetry (<[key := v]> telemetry) w = on_sim_telemetry telemetry w.
Proof.
  intros Hlat Hlng Hhd. unfold on_sim_telemetry, try_except, mbind, M_bind, getitem.
  by rewrite !lookup_insert_ne by done.
Qed.

(** X7.  Two messages with the three keys, handled one after the other
    with no [pop] in between: the slot holds the second tuple only, and
    after one [pop] it is empty.  The first tuple is lost. *)
Theorem on_sim_telemetry_overwrites telemetry1 telemetry2 (s1 s2 : sample) w :
  telemetry_sample telemetry1 = Some s1 →
  telemetry_sample telemetry2 = Some s2 →
  is_slot (queue_to_ui w) →
  ∃ w',
    (on_sim_telemetry telemetry1 ;; on_sim_telemetry telemetry2) w = (Returned (), w') ∧
    queue_to_ui w' = Deque 1 [s2] ∧
    pop (queue_to_ui w') = Some (s2, Deque 1 []).
Proof.
  intros Hs1 Hs2 Hslot. unfold mbind, M_bind.
  rewrite (on_sim_telemetry_sample _ _ _ Hs1), (on_sim_telemetry_sample _ _ _ Hs2).
  eexists. split; [done|]. simpl.
  rewrite (slot_after_append s1 _ Hslot). by split.
Qed.

(** X8.  A message that lacks a key, handled after one with the three
    keys, leaves the earlier tuple in the slot: the next [pop] returns the
    stale tuple. *)
Theorem on_sim_telemetry_keeps_stale telemetry1 telemetry2 (s1 : sample) (key : string) w :
  telemetry_sample telemetry1 = Some s1 →
  first_missing telemetry2 = Some key →
  is_slot (queue_to_ui w) →
  ∃ w',
    (on_sim_telemetry telemetry1 ;; on_sim_telemetry telemetry2) w = (Returned (), w') ∧
    pop (queue_to_ui w') = Some (s1, Deque 1 []) ∧
    log w' = log w ++ [LogError (KeyError key)].
Proof.
  intros Hs1 Hkey Hslot. unfold mbind, M_bind.
  rewrite (on_sim_telemetry_sample _ _ _ Hs1), (on_sim_telemetry_first_missing _ _ _ Hkey).
  eexists. split; [done|]. simpl.
  rewrite (slot_after_append s1 _ Hslot). by split.
Qed.

End TelemetryAnyMessage.

Lemma on_sim_telemetry_logs_first_missing_witness :
  MapComponent.on_sim_telemetry ∅ main_world =
    (Returned (), add_log (LogError (KeyError "latitude-deg")) main_world) ∧
  log (add_log (LogError (KeyError "latitude-deg")) main_world) =
    log main_world ++ [LogError (KeyError "latitude-deg")].
Proof.
  apply (on_sim_telemetry_logs_first_missing ∅ "latitude-deg" main_world).
  reflexivity.
Defined.

Lemma on_sim_telemetry_ignores_other_keys_witness :
  MapComponent.on_sim_telemetry
    (<["altitude-ft" := PyFloat 1200.0%float]> telemetry_example) main_world =
  MapComponent.on_sim_telemetry telemetry_example main_world.
Proof.
  apply (on_sim_telemetry_ignores_other_keys telemetry_example "altitude-ft"
           (PyFloat 1200.0%float) main_world); discriminate.
Defined.

Lemma on_sim_telemetry_overwrites_witness :
  ∃ w',
    (MapComponent.on_sim_telemetry telemetry_example ;;
     MapComponent.on_sim_telemetry telemetry_later) main_world = (Returned (), w') ∧
    queue_to_ui w' =
      Deque 1 [(PyFloat 47.7%float, PyFloat (-122.4)%float, PyFloat 180.0%float)] ∧
    pop (queue_to_ui w') =
      Some ((PyFloat 47.7%float, PyFloat (-122.4)%float, PyFloat 180.0%float), Deque 1 []).
Proof.
  apply (on_sim_telemetry_overwrites telemetry_example telemetry_later
           (PyFloat 47.6%float, PyFloat (-122.3)%float, PyFloat 90.0%float)
           (PyFloat 47.7%float, PyFloat (-122.4)%float, PyFloat 180.0%float) main_world).
  - vm_compute. reflexivity.
  - vm_compute. reflexivity.
  - split; simpl; lia.
Defined.

Lemma on_sim_telemetry_keeps_stale_witness :
  ∃ w',
    (MapComponent.on_sim_telemetry telemetry_example ;;
     MapComponent.on_sim_telemetry telemetry_no_heading) main_world = (Returned (), w') ∧
    pop (queue_to_ui w') =
      Some ((PyFloat 47.6%float, PyFloat (-122.3)%float, PyFloat 90.0%float), Deque 1 []) ∧
    log w' = log main_world ++ [LogError (KeyError "heading-deg")].
Proof.
  apply (on_sim_telemetry_keeps_stale telemetry_example telemetry_no_heading
           (PyFloat 47.6%float, PyFloat (-122.3)%float, PyFloat 90.0%float)
           "heading-deg" main_world).
  - vm_compute. reflexivity.
  - vm_compute. reflexivity.
  - split; simpl; lia.
Defined.

(** ** The session's periodic loop *)

Section PeriodicLoop.
Import MapComponent.
Implicit Types (w : world) (schedule : list (list (gmap string pyval))).

Lemma sleep_frame (arrived : list (gmap string pyval)) : ∀ w,
  ∃ w',
    sleep arrived w = (Returned (), w') ∧
    queue_out w' = queue_out w ∧
    published w' = published w ∧
    same_session w w' ∧
    (is_slot (queue_to_ui w) → is_slot (queue_to_ui w')).
Proof.
  unfold sleep. induction arrived as [|telemetry arrived IH]; intros w; simpl.
  - exists w. split; [done|]. split; [done|]. split; [done|]. split; [by split|]. done.
  - destruct (on_sim_telemetry_frame telemetry w)
      as (w1 & Hrun & Hq & Hp & (Hr & Hreg & Hsub) & Hslot).
    destruct (IH w1) as (w' & Hrun' & Hq' & Hp' & (Hr' & Hreg' & Hsub') & Hslot').
    exists w'. unfold mbind, M_bind. rewrite Hrun.
    split; [done|]. split; [congruence|]. split; [congruence|].
    split; [split; [congruence|split; congruence]|]. auto.
Qed.

Lemma sleep_last (arrived : list (gmap string pyval)) telemetry (s : sample) : ∀ w,
  telemetry_sample telemetry = Some s →
  is_slot (queue_to_ui w) →
  ∃ w', sleep (arrived ++ [telemetry]) w = (Returned (), w') ∧ queue_to_ui w' = Deque 1 [s].
Proof.
  intros w Hs. revert w. unfold sleep.
  induction arrived as [|telemetry0 arrived IH]; intros w Hslot; simpl; unfold mbind, M_bind.
  - rewrite (on_sim_telemetry_sample _ _ _ Hs). eexists. split; [done|].
    simpl. by apply slot_after_append.
  - destruct (on_sim_telemetry_frame telemetry0 w) as (w1 & -> & _ & _ & _ & Hslot1).
    apply IH. auto.
Qed.

Lemma onJoin_loop_last schedule arrived telemetry (s : sample) : ∀ w,
  is_running w = true →
  telemetry_sample telemetry = Some s →
  is_slot (queue_to_ui w) →
  ∃ w',
    onJoin_loop (schedule ++ [arrived ++ [telemetry]]) w = (Unfinished, w') ∧
    queue_to_ui w' = Deque 1 [s].
Proof.
  intros w Hrunning Hs. revert w Hrunning.
  induction schedule as [|arrived0 schedule IH]; intros w Hrunning Hslot; simpl;
    rewrite Hrunning; unfold mbind, M_bind; rewrite pass_outgoing_cmd_drained.
  - destruct (sleep_last arrived telemetry s (drained (items (queue_out w)) w) Hs Hslot)
      as (w' & -> & Hq).
    by exists w'.
  - destruct (sleep_frame arrived0 (drained (items (queue_out w)) w))
      as (w2 & -> & _ & _ & (Hr & _ & _) & Hslot2).
    apply IH; [by rewrite Hr|by apply Hslot2].
Qed.

(** X11.  When the last message delivered to the session has the three
    keys, [queue_to_ui] holds its tuple and nothing else, whatever was
    delivered before and whatever the loop did in between. *)
Theorem onJoin_keeps_latest_telemetry schedule arrived telemetry (s : sample) w :
  telemetry_sample telemetry = Some s →
  is_slot (queue_to_ui w) →
  ∃ w',
    onJoin (schedule ++ [arrived ++ [telemetry]]) w = (Unfinished, w') ∧
    queue_to_ui w' = Deque 1 [s].
Proof.
  intros Hs Hslot. unfold onJoin, mbind, M_bind, register, subscribe.
  by apply onJoin_loop_last.
Qed.

End PeriodicLoop.

Lemma onJoin_keeps_latest_telemetry_witness :
  ∃ w',
    MapComponent.onJoin ([[telemetry_example]] ++ [[telemetry_no_heading] ++ [telemetry_later]])
      main_world = (Unfinished, w') ∧
    queue_to_ui w' =
      Deque 1 [(PyFloat 47.7%float, PyFloat (-122.4)%float, PyFloat 180.0%float)].
Proof.
  apply (onJoin_keeps_latest_telemetry [[telemetry_example]] [telemetry_no_heading]
           telemetry_later
           (PyFloat 47.7%float, PyFloat (-122.4)%float, PyFloat 180.0%float) main_world).
  - vm_compute. reflexivity.
  - split; simpl; lia.
Defined.

(** ** More on the reconnect loop *)

(** X12.  Only [OSError] is caught: when, after any number of [OSError]
    failures, [runner.run] raises an exception of another class,
    [join_to_router] lets it through and makes no further call. *)
Theorem join_to_router_raises_other (failures : list exn) (e : exn)
    (rest : list (option exn)) :
  Forall (λ e', is_OSError e' = true) failures →
  is_OSError e = false →
  join_to_router ((Some <$> failures) ++ Some e :: rest) = (Raised e, length failures + 1).
Proof.
  intros Hfail He. unfold join_to_router.
  assert (∀ k, join_to_router_loop ((Some <$> failures) ++ Some e :: rest) true k
               = (Raised e, length failures + S k)) as H.
  { induction Hfail as [|e' failures He' _ IH]; intros k; simpl.
    - by rewrite He.
    - rewrite He', IH. f_equal. lia. }
  apply H.
Qed.

Lemma join_to_router_raises_other_witness :
  join_to_router ((Some <$> [gaierror; ConnectionRefusedError]) ++ Some RuntimeError :: [None]) =
    (Raised RuntimeError, length [gaierror; ConnectionRefusedError] + 1).
Proof.
  apply (join_to_router_raises_other [gaierror; ConnectionRefusedError] RuntimeError [None]).
  - repeat constructor.
  - reflexivity.
Defined.

Lemma join_to_router_keeps_retrying_witness :
  join_to_router (Some <$> [gaierror; gaierror; gaierror; gaierror]) =
    (Unfinished, length [gaierror; gaierror; gaierror; gaierror]).
Proof.
  apply (join_to_router_keeps_retrying [gaierror; gaierror; gaierror; gaierror]).
  repeat constructor.
Defined.

(** ** From the presentation layer's writes to the router *)

Section CommandPath.
Import MapComponent.
Implicit Types (w : world) (c : command).

Lemma queue_out_after_append c w :
  is_slot (queue_out w) →
  queue_out (set_queue_out (append c (queue_out w)) (add_call (QueueOut, MAppend) w))
    = Deque 1 [c].
Proof. intros Hslot. simpl. by apply slot_after_append. Qed.

(** X14.  The gains given to [force_pid] reach the router: the next
    [pass_outgoing_cmd] publishes them once, in the order [(kp, ki, kd)], on
    [map.pid], and logs nothing. *)
Theorem force_pid_is_published w (kp ki kd : float) :
  is_slot (queue_out w) →
  ∃ w',
    (PIDManager.force_pid kp ki kd ;; pass_outgoing_cmd) w = (Returned (), w') ∧
    published w' = published w ++ [("map.pid", [PyFloat kp; PyFloat ki; PyFloat kd])] ∧
    log w' = log w ∧
    items (queue_out w') = [].
Proof.
  intros Hslot. unfold mbind, M_bind, PIDManager.force_pid, try_except, queue_out_append.
  rewrite pass_outgoing_cmd_drained, queue_out_after_append by done.
  eexists. split; [done|]. simpl. by rewrite app_nil_r.
Qed.

(** X15.  Of two commands written before the session's next drain only
    the later one is handled.  [force_pid] followed by [force_location]
    publishes nothing: the gains are lost and the location is logged as
    unknown.  [force_location] followed by [force_pid] publishes the gains
    and leaves no trace of the location, not even a warning. *)
Theorem later_command_wins w (kp ki kd : float) (lat lng : string) :
  is_slot (queue_out w) →
  (∃ w',
     (PIDManager.force_pid kp ki kd ;; Locator.force_location lat lng ;;
      pass_outgoing_cmd) w = (Returned (), w') ∧
     published w' = published w ∧
     log w' = log w ++ [LogWarning "Unknown command: loc, ignoring"]) ∧
  (∃ w',
     (Locator.force_location lat lng ;; PIDManager.force_pid kp ki kd ;;
      pass_outgoing_cmd) w = (Returned (), w') ∧
     published w' = published w ++ [("map.pid", [PyFloat kp; PyFloat ki; PyFloat kd])] ∧
     log w' = log w).
Proof.
  intros Hslot.
  unfold mbind, M_bind, PIDManager.force_pid, Locator.force_location, try_except,
    queue_out_append.
  rewrite !pass_outgoing_cmd_drained.
  destruct w as [qui [m its] run reg subs pub lg cs].
  destruct Hslot as [Hmax Hlen]. simpl in Hmax, Hlen. subst m.
  destruct its as [|c0 [|c1 its]]; [| |simpl in Hlen; lia];
    (split; eexists; (split; [done|]); simpl; by rewrite ?app_nil_r).
Qed.

(** X16.  The presentation thread can write between two iterations of the
    drain's loop.  When [queue_out] holds [c1] and [c2] is appended after
    the first [pop], the same call handles both, [c1] first, before it
    finds the slot empty. *)
Theorem pass_outgoing_cmd_interleaved_handles_both w c1 c2 (fuel : nat) :
  items (queue_out w) = [c1] →
  maxlen (queue_out w) = 1 →
  3 ≤ fuel →
  ∃ w',
    pass_outgoing_cmd_interleaved fuel [[]; [c2]] w = (Returned (), w') ∧
    published w' = published w ++ option_list (publish_of c1) ++ option_list (publish_of c2) ∧
    log w' = log w ++ option_list (warning_of c1) ++ option_list (warning_of c2) ∧
    handled_between w w' = 2 ∧
    items (queue_out w') = [].
Proof.
  intros Hitems Hmax Hfuel.
  destruct fuel as [|[|[|fuel]]]; [lia..|].
  destruct w as [qui [m its] run reg subs pub lg cs]. simpl in Hitems, Hmax. subst its m.
  destruct c1 as [cmd1 arguments1], c2 as [cmd2 arguments2].
  unfold pass_outgoing_cmd_interleaved, try_except, handled_between, publish_of, warning_of.
  simpl. unfold mbind, M_bind, pass_outgoing_cmd_body, queue_out_append, queue_out_pop.
  simpl. unfold mbind, M_bind. simpl.
  repeat (case_decide; unfold publish, logger_warning; simpl); try congruence;
    (eexists; split; [reflexivity|]); simpl;
    rewrite ?length_app, ?app_nil_r, <- ?app_assoc; simpl;
    (split; [done|]); (split; [done|]); (split; [lia|done]).
Qed.

End CommandPath.

Lemma force_pid_is_published_witness :
  ∃ w',
    (PIDManager.force_pid 0.5%float 0.1%float 0.05%float ;;
     MapComponent.pass_outgoing_cmd) main_world = (Returned (), w') ∧
    published w' =
      published main_world ++
      [("map.pid", [PyFloat 0.5%float; PyFloat 0.1%float; PyFloat 0.05%float])] ∧
    log w' = log main_world ∧
    items (queue_out w') = [].
Proof.
  apply (force_pid_is_published main_world 0.5%float 0.1%float 0.05%float).
  split; simpl; lia.
Defined.

Lemma later_command_wins_witness :
  (∃ w',
     (PIDManager.force_pid 0.5%float 0.1%float 0.05%float ;;
      Locator.force_location "47.6" "-122.3" ;;
      MapComponent.pass_outgoing_cmd) main_world = (Returned (), w') ∧
     published w' = published main_world ∧
     log w' = log main_world ++ [LogWarning "Unknown command: loc, ignoring"]) ∧
  (∃ w',
     (Locator.force_location "47.6" "-122.3" ;;
      PIDManager.force_pid 0.5%float 0.1%float 0.05%float ;;
      MapComponent.pass_outgoing_cmd) main_world = (Returned (), w') ∧
     published w' =
       published main_world ++
       [("map.pid", [PyFloat 0.5%float; PyFloat 0.1%float; PyFloat 0.05%float])] ∧
     log w' = log main_world).
Proof.
  apply (later_command_wins main_world 0.5%float 0.1%float 0.05%float "47.6" "-122.3").
  split; simpl; lia.
Defined.

Lemma pass_outgoing_cmd_interleaved_handles_both_witness :
  ∃ w',
    pass_outgoing_cmd_interleaved 3 [[]; [("pid", [PyFloat 1.0%float])]] pid_world
      = (Returned (), w') ∧
    published w' =
      published pid_world ++ option_list (publish_of ("pid", pid_example)) ++
      option_list (publish_of ("pid", [PyFloat 1.0%float])) ∧
    log w' =
      log pid_world ++ option_list (warning_of ("pid", pid_example)) ++
      option_list (warning_of ("pid", [PyFloat 1.0%float])) ∧
    handled_between pid_world w' = 2 ∧
    items (queue_out w') = [].
Proof.
  apply (pass_outgoing_cmd_interleaved_handles_both pid_world ("pid", pid_example)
           ("pid", [PyFloat 1.0%float]) 3).
  - reflexivity.
  - reflexivity.
  - lia.
Defined.

(** ** The presentation layer's reads *)

Section PresentationReads.
Context {D : Type} (Decimal : string → option D).
Import Presentation.
Implicit Types (u : ui_state D) (lat lng kp ki kd : string).

(** X17.  When both texts are accepted by [Decimal] and [queue_to_ui]
    holds a tuple of three floats, [set_location] stores the two decimals,
    takes the tuple out of the slot and emits it, in the same order, as
    [locationUpdate]; [queue_out] is not touched. *)
Theorem set_location_emits_sample u lat lng (dlat dlng : D) (a b c : float) :
  Decimal lat = Some dlat →
  Decimal lng = Some dlng →
  items (queue_to_ui (shared u)) = [(PyFloat a, PyFloat b, PyFloat c)] →
  ∃ u',
    set_location Decimal lat lng u = (UiReturned (), u') ∧
    emitted u' = emitted u ++ [("locationUpdate", [PyFloat a; PyFloat b; PyFloat c])] ∧
    items (queue_to_ui (shared u')) = [] ∧
    locator_lat u' = Some dlat ∧
    locator_lng u' = Some dlng ∧
    queue_out (shared u') = queue_out (shared u).
Proof.
  intros Hlat Hlng Hitems.
  destruct u as [[[m its] qo run reg subs pub lg cs] la ln kp' ki' kd' em].
  simpl in Hitems. subst its.
  unfold set_location, mbind, UI_bind, to_Decimal, ui_try_except, lift. simpl.
  rewrite Hlat, Hlng. simpl.
  eexists. split; [reflexivity|]. done.
Qed.

(** X18.  When both texts are accepted and [queue_to_ui] is empty,
    [set_location] stores the two decimals and returns normally: the
    [IndexError] of [pop] is caught and no signal is emitted. *)
Theorem set_location_empty_slot u lat lng (dlat dlng : D) :
  Decimal lat = Some dlat →
  Decimal lng = Some dlng →
  items (queue_to_ui (shared u)) = [] →
  ∃ u',
    set_location Decimal lat lng u = (UiReturned (), u') ∧
    emitted u' = emitted u ∧
    locator_lat u' = Some dlat ∧
    locator_lng u' = Some dlng ∧
    queue_to_ui (shared u') = queue_to_ui (shared u) ∧
    queue_out (shared u') = queue_out (shared u).
Proof.
  intros Hlat Hlng Hitems.
  destruct u as [[[m its] qo run reg subs pub lg cs] la ln kp' ki' kd' em].
  simpl in Hitems. subst its.
  unfold set_location, mbind, UI_bind, to_Decimal, ui_try_except, lift. simpl.
  rewrite Hlat, Hlng. simpl.
  eexists. split; [reflexivity|]. done.
Qed.

(** X19.  The texts are converted before the slot is read: when [Decimal]
    refuses [lat] or [lng], [set_location] raises [InvalidOperation] with
    the shared world untouched (a waiting tuple stays in the slot) and no
    signal emitted.  [Locator.lng] is never changed then; [Locator.lat] is
    changed already when only [lng] is refused. *)
Theorem set_location_refused_text u lat lng :
  Decimal lat = None ∨ Decimal lng = None →
  ∃ u',
    set_location Decimal lat lng u = (UiRaised InvalidOperation, u') ∧
    shared u' = shared u ∧
    emitted u' = emitted u ∧
    locator_lng u' = locator_lng u ∧
    locator_lat u' = match Decimal lat with Some d => Some d | None => locator_lat u end.
Proof.
  intros Hbad. unfold set_location, mbind, UI_bind, to_Decimal.
  destruct (Decimal lat) as [dlat|] eqn:Hlat.
  - destruct Hbad as [?|Hlng]; [done|]. simpl. rewrite Hlng.
    eexists. split; [reflexivity|]. done.
  - eexists. split; [reflexivity|]. done.
Qed.

(** X20.  [set_pid] reads the same deque as [set_location].  When the
    three texts are accepted and [queue_to_ui] holds a telemetry tuple of
    three floats, [set_pid] takes it and emits it as [pidUpdate], so that a
    [set_location] that follows finds the slot empty and emits nothing. *)
Theorem set_pid_takes_the_telemetry u kp ki kd lat lng (dkp dki dkd dlat dlng : D)
    (a b c : float) :
  Decimal kp = Some dkp →
  Decimal ki = Some dki →
  Decimal kd = Some dkd →
  Decimal lat = Some dlat →
  Decimal lng = Some dlng →
  items (queue_to_ui (shared u)) = [(PyFloat a, PyFloat b, PyFloat c)] →
  ∃ u',
    (set_pid Decimal kp ki kd ;; set_location Decimal lat lng) u = (UiReturned (), u') ∧
    emitted u' = emitted u ++ [("pidUpdate", [PyFloat a; PyFloat b; PyFloat c])] ∧
    items (queue_to_ui (shared u')) = [].
Proof.
  intros Hkp Hki Hkd Hlat Hlng Hitems.
  destruct u as [[[m its] qo run reg subs pub lg cs] la ln kp' ki' kd' em].
  simpl in Hitems. subst its.
  unfold set_pid, set_location, mbind, UI_bind, to_Decimal, ui_try_except, lift. simpl.
  rewrite Hkp, Hki, Hkd. simpl. rewrite Hlat, Hlng. simpl.
  eexists. split; [reflexivity|]. done.
Qed.

(** X21.  From the router to the map: a telemetry message with three float
    fields, handled by [on_sim_telemetry], is emitted by the next
    [set_location] as [locationUpdate(lat, lng, heading)]; a second
    [set_location] emits nothing more. *)
Theorem telemetry_reaches_locator u (telemetry : gmap string pyval) lat lng
    (dlat dlng : D) (a b c : float) :
  telemetry !! "latitude-deg" = Some (PyFloat a) →
  telemetry !! "longitude-deg" = Some (PyFloat b) →
  telemetry !! "heading-deg" = Some (PyFloat c) →
  Decimal lat = Some dlat →
  Decimal lng = Some dlng →
  is_slot (queue_to_ui (shared u)) →
  ∃ u',
    (lift (MapComponent.on_sim_telemetry telemetry) ;;
     set_location Decimal lat lng ;;
     set_location Decimal lat lng) u = (UiReturned (), u') ∧
    emitted u' = emitted u ++ [("locationUpdate", [PyFloat a; PyFloat b; PyFloat c])] ∧
    items (queue_to_ui (shared u')) = [].
Proof.
  intros Ha Hb Hc Hlat Hlng Hslot.
  assert (telemetry_sample telemetry = Some (PyFloat a, PyFloat b, PyFloat c)) as Hs.
  { unfold telemetry_sample. by rewrite Ha, Hb, Hc. }
  unfold mbind at 1 2. unfold UI_bind, lift at 1.
  rewrite (on_sim_telemetry_sample _ _ _ Hs). simpl.
  destruct u as [[[m its] qo run reg subs pub lg cs] la ln kp' ki' kd' em].
  destruct Hslot as [Hmax Hlen]. simpl in Hmax, Hlen. subst m.
  unfold set_location, mbind, UI_bind, to_Decimal, ui_try_except, lift.
  destruct its as [|s0 [|s1 its]]; [| |simpl in Hlen; lia];
    (repeat (simpl; rewrite ?Hlat, ?Hlng); eexists; split; [reflexivity|]; done).
Qed.

End PresentationReads.

Lemma set_location_emits_sample_witness :
  ∃ u',
    Presentation.set_location example_Decimal "47.61" "-122.33" telemetry_ui
      = (UiReturned (), u') ∧
    emitted u' =
      emitted telemetry_ui ++
      [("locationUpdate", [PyFloat 47.6%float; PyFloat (-122.3)%float; PyFloat 90.0%float])] ∧
    items (queue_to_ui (shared u')) = [] ∧
    locator_lat u' = Some "47.61" ∧
    locator_lng u' = Some "-122.33" ∧
    queue_out (shared u') = queue_out (shared telemetry_ui).
Proof.
  apply (set_location_emits_sample example_Decimal telemetry_ui "47.61" "-122.33"
           "47.61" "-122.33" 47.6%float (-122.3)%float 90.0%float).
  - vm_compute. reflexivity.
  - vm_compute. reflexivity.
  - vm_compute. reflexivity.
Defined.

Lemma set_location_empty_slot_witness :
  ∃ u',
    Presentation.set_location example_Decimal "47.61" "-122.33" main_ui
      = (UiReturned (), u') ∧
    emitted u' = emitted (D:=string) main_ui ∧
    locator_lat u' = Some "47.61" ∧
    locator_lng u' = Some "-122.33" ∧
    queue_to_ui (shared u') = queue_to_ui (shared (D:=string) main_ui) ∧
    queue_out (shared u') = queue_out (shared (D:=string) main_ui).
Proof.
  apply (set_location_empty_slot example_Decimal main_ui "47.61" "-122.33" "47.61" "-122.33").
  - vm_compute. reflexivity.
  - vm_compute. reflexivity.
  - reflexivity.
Defined.

Lemma set_location_refused_text_witness :
  ∃ u',
    Presentation.set_location example_Decimal "47.61" "west" telemetry_ui
      = (UiRaised InvalidOperation, u') ∧
    shared u' = shared telemetry_ui ∧
    emitted u' = emitted telemetry_ui ∧
    locator_lng u' = locator_lng telemetry_ui ∧
    locator_lat u' =
      match example_Decimal "47.61" with Some d => Some d | None => locator_lat telemetry_ui end.
Proof.
  apply (set_location_refused_text example_Decimal telemetry_ui "47.61" "west").
  right. vm_compute. reflexivity.
Defined.

Lemma set_pid_takes_the_telemetry_witness :
  ∃ u',
    (Presentation.set_pid example_Decimal "0.5" "0.1" "0.05" ;;
     Presentation.set_location example_Decimal "47.61" "-122.33") telemetry_ui
      = (UiReturned (), u') ∧
    emitted u' =
      emitted telemetry_ui ++
      [("pidUpdate", [PyFloat 47.6%float; PyFloat (-122.3)%float; PyFloat 90.0%float])] ∧
    items (queue_to_ui (shared u')) = [].
Proof.
  apply (set_pid_takes_the_telemetry example_Decimal telemetry_ui "0.5" "0.1" "0.05"
           "47.61" "-122.33" "0.5" "0.1" "0.05" "47.61" "-122.33"
           47.6%float (-122.3)%float 90.0%float);
    vm_compute; reflexivity.
Defined.

Lemma telemetry_reaches_locator_witness :
  ∃ u',
    (lift (MapComponent.on_sim_telemetry telemetry_example) ;;
     Presentation.set_location example_Decimal "47.61" "-122.33" ;;
     Presentation.set_location example_Decimal "47.61" "-122.33") main_ui
      = (UiReturned (), u') ∧
    emitted u' =
      emitted (D:=string) main_ui ++
      [("locationUpdate", [PyFloat 47.6%float; PyFloat (-122.3)%float; PyFloat 90.0%float])] ∧
    items (queue_to_ui (shared u')) = [].
Proof.
  apply (telemetry_reaches_locator example_Decimal main_ui telemetry_example
           "47.61" "-122.33" "47.61" "-122.33" 47.6%float (-122.3)%float 90.0%float).
  - vm_compute. reflexivity.
  - vm_compute. reflexivity.
  - vm_compute. reflexivity.
  - vm_compute. reflexivity.
  - vm_compute. reflexivity.
  - split; simpl; lia.
Defined.

(** ** Both sides together *)

Section BothSides.
Context {D : Type} (Decimal : string → option D).
Import Presentation.
Implicit Types (u : ui_state D) (w : world) (acts : list action).

Lemma pop_is_slot {A : Type} (d d' : deque A) (v : A) :
  pop d = Some (v, d') → is_slot d → is_slot d'.
Proof.
  intros Hpop [Hmax Hlen]. destruct (pop_Some _ _ _ Hpop) as [Hitems Hmax'].
  split; [congruence|]. rewrite Hitems, length_app in Hlen. simpl in Hlen. lia.
Qed.

Lemma read_slot_shared_step (signal : string) u :
  shared_step (shared u)
    (shared (ui_try_except (pos ← lift queue_to_ui_pop; emit signal pos)
               is_ui_IndexError (λ _, mret ()) u).2).
Proof.
  pose proof (step_queue_to_ui_pop (shared u)) as Hstep.
  unfold ui_try_except, mbind, UI_bind, lift, queue_to_ui_pop in *.
  destruct (pop (queue_to_ui (shared u))) as [[[[pa pb] pc] d]|]; simpl in *.
  - destruct pa, pb, pc; exact Hstep.
  - exact Hstep.
Qed.

Lemma set_location_shared_step lat lng u :
  shared_step (shared u) (shared (set_location Decimal lat lng u).2).
Proof.
  unfold set_location, mbind at 1 2 3 4, UI_bind, to_Decimal.
  destruct (Decimal lat) as [dlat|]; [|apply step_nothing]. simpl.
  destruct (Decimal lng) as [dlng|]; [|apply step_nothing].
  apply (read_slot_shared_step "locationUpdate"
           (set_locator_lng dlng (set_locator_lat dlat u))).
Qed.

Lemma set_pid_shared_step kp ki kd u :
  shared_step (shared u) (shared (set_pid Decimal kp ki kd u).2).
Proof.
  unfold set_pid, mbind at 1 2 3 4 5 6, UI_bind, to_Decimal.
  destruct (Decimal kp) as [dkp|]; [|apply step_nothing]. simpl.
  destruct (Decimal ki) as [dki|]; [|apply step_nothing]. simpl.
  destruct (Decimal kd) as [dkd|]; [|apply step_nothing].
  apply (read_slot_shared_step "pidUpdate"
           (set_pid_kd dkd (set_pid_ki dki (set_pid_kp dkp u)))).
Qed.

Lemma lift_shared {A : Type} (m : M A) u : shared (lift m u).2 = (m (shared u)).2.
Proof. unfold lift. by destruct (m (shared u)) as [[a|e|] w]. Qed.

Lemma perform_shared_step (a : action) u :
  shared_step (shared u) (shared (perform Decimal a u).2).
Proof.
  destruct a as [telemetry| |lat lng|lat lng|kp ki kd|kp ki kd]; cbn [perform].
  - rewrite lift_shared. constructor.
  - rewrite lift_shared. constructor.
  - apply set_location_shared_step.
  - unfold force_location. rewrite lift_shared. constructor.
  - apply set_pid_shared_step.
  - unfold force_pid. rewrite lift_shared. constructor.
Qed.

Lemma run_actions_invariant (P : world → Prop) :
  (∀ w w', shared_step w w' → P w → P w') →
  ∀ acts u, P (shared u) → P (shared (run_actions Decimal acts u)).
Proof.
  intros Hstep acts. induction acts as [|a acts IH]; intros u HP; simpl; [done|].
  apply IH. eapply Hstep; [apply perform_shared_step|done].
Qed.

Lemma shared_step_slots w w' :
  shared_step w w' →
  is_slot (queue_to_ui w) ∧ is_slot (queue_out w) →
  is_slot (queue_to_ui w') ∧ is_slot (queue_out w').
Proof.
  intros Hstep [Hui Hout]. destruct Hstep; [| | | | |done].
  - destruct (on_sim_telemetry_frame telemetry w) as (w' & -> & Hq & _ & _ & Hslot).
    simpl. rewrite Hq. auto.
  - rewrite pass_outgoing_cmd_drained. simpl. split; [done|].
    split; simpl; [apply Hout|lia].
  - simpl. split; [done|]. by apply append_is_slot.
  - simpl. split; [done|]. by apply append_is_slot.
  - unfold queue_to_ui_pop. destruct (pop (queue_to_ui w)) as [[v d]|] eqn:Hpop; simpl.
    + split; [|done]. by apply (pop_is_slot _ _ _ Hpop).
    + done.
Qed.

(** X22.  Whatever the session and the presentation layer do, in any
    order and any number of times, each of the two deques keeps its bound
    of 1 and never holds more than one element. *)
Theorem slots_stay_slots acts u :
  is_slot (queue_to_ui (shared u)) →
  is_slot (queue_out (shared u)) →
  is_slot (queue_to_ui (shared (run_actions Decimal acts u))) ∧
  is_slot (queue_out (shared (run_actions Decimal acts u))).
Proof.
  intros Hui Hout.
  apply (run_actions_invariant
           (λ w, is_slot (queue_to_ui w) ∧ is_slot (queue_out w))); [|done].
  apply shared_step_slots.
Qed.

Lemma trim_Forall {A : Type} (P : A → Prop) (n : nat) (l : list A) :
  Forall P l → Forall P (trim n l).
Proof.
  intros Hl. unfold trim. case_match; [|done].
  destruct l as [|x l]; simpl; [done|]. by apply Forall_inv_tail in Hl.
Qed.

Lemma append_Forall {A : Type} (P : A → Prop) (v : A) (d : deque A) :
  Forall P (items d) → P v → Forall P (items (append v d)).
Proof.
  intros Hd Hv. simpl. apply trim_Forall, Forall_app. split; [done|]. by constructor.
Qed.

Lemma written_tag_publish_of (cmds : list command) :
  Forall written_tag cmds →
  Forall (λ p, p.1 = "map.pid") (omap publish_of cmds).
Proof.
  induction 1 as [|[cmd arguments] cmds Htag _ IH]; simpl; [constructor|].
  unfold publish_of. simpl. destruct Htag as [Htag|Htag]; simpl in Htag; subst cmd; simpl.
  - done.
  - by constructor.
Qed.

Lemma shared_step_written w w' :
  shared_step w w' →
  Forall written_tag (items (queue_out w)) ∧ Forall (λ p, p.1 = "map.pid") (published w) →
  Forall written_tag (items (queue_out w')) ∧ Forall (λ p, p.1 = "map.pid") (published w').
Proof.
  intros Hstep [Hq Hp]. destruct Hstep; [| | | | |done].
  - destruct (on_sim_telemetry_frame telemetry w) as (w' & -> & Hq' & Hp' & _).
    simpl. by rewrite Hq', Hp'.
  - rewrite pass_outgoing_cmd_drained. simpl. split; [constructor|].
    apply Forall_app. split; [done|].
    apply written_tag_publish_of, Forall_rev, Hq.
  - simpl. split; [|done]. apply trim_Forall, Forall_app. split; [done|].
    constructor; [by left|constructor].
  - simpl. split; [|done]. apply trim_Forall, Forall_app. split; [done|].
    constructor; [by right|constructor].
  - unfold queue_to_ui_pop. by destruct (pop (queue_to_ui w)) as [[v d]|].
Qed.

(** X23.  No entry point of the program writes a command tagged ['pos']:
    starting from the queues [main] creates, whatever the session and the
    presentation layer do, every [publish] made is on [map.pid], and
    [map.position] is never published. *)
Theorem only_map_pid_is_published acts :
  Forall (λ p, p.1 = "map.pid")
    (published (shared (run_actions Decimal acts main_ui))).
Proof.
  apply (run_actions_invariant
           (λ w, Forall written_tag (items (queue_out w)) ∧
                 Forall (λ p, p.1 = "map.pid") (published w))
           shared_step_written acts main_ui).
  split; constructor.
Qed.

Lemma only_ui_calls_shared_step {A : Type} (m : UI D A) :
  (∀ u, (shared (m u).2 = shared u ∨
         shared (m u).2 = (queue_to_ui_pop (shared u)).2) ∨
        ∃ c, shared (m u).2 = (queue_out_append c (shared u)).2) →
  only_ui_calls m.
Proof.
  intros Hm u. destruct (Hm u) as [[->| ->]|[c ->]].
  - exists []. rewrite app_nil_r. by split.
  - exists [(QueueToUi, MPop)]. split; [|by repeat constructor].
    unfold queue_to_ui_pop. by destruct (pop (queue_to_ui (shared u))) as [[v d]|].
  - exists [(QueueOut, MAppend)]. split; [done|by repeat constructor].
Qed.

Lemma read_slot_shared (signal : string) u :
  shared (ui_try_except (pos ← lift queue_to_ui_pop; emit signal pos)
            is_ui_IndexError (λ _, mret ()) u).2 = (queue_to_ui_pop (shared u)).2.
Proof.
  unfold ui_try_except, mbind, UI_bind, lift, queue_to_ui_pop.
  destruct (pop (queue_to_ui (shared u))) as [[[[pa pb] pc] d]|]; simpl; [|done].
  by destruct pa, pb, pc.
Qed.

(** X24.  The presentation layer's four entry points mirror the session:
    on the shared deques they call nothing but [queue_to_ui.pop] and
    [queue_out.append], whatever their arguments and the state they run
    in. *)
Theorem presentation_pops_queue_to_ui_appends_queue_out :
  (∀ lat lng, only_ui_calls (set_location Decimal lat lng)) ∧
  (∀ lat lng, only_ui_calls (force_location (D:=D) lat lng)) ∧
  (∀ kp ki kd, only_ui_calls (set_pid Decimal kp ki kd)) ∧
  (∀ kp ki kd, only_ui_calls (force_pid (D:=D) kp ki kd)).
Proof.
  split; [|split; [|split]].
  - intros lat lng. apply only_ui_calls_shared_step. intros u. left.
    unfold set_location, mbind at 1 2 3 4, UI_bind, to_Decimal.
    destruct (Decimal lat) as [dlat|]; [|by left]. simpl.
    destruct (Decimal lng) as [dlng|]; [|by left]. right.
    apply (read_slot_shared "locationUpdate"
             (set_locator_lng dlng (set_locator_lat dlat u))).
  - intros lat lng. apply only_ui_calls_shared_step. intros u. right.
    eexists. unfold force_location. by rewrite lift_shared.
  - intros kp ki kd. apply only_ui_calls_shared_step. intros u. left.
    unfold set_pid, mbind at 1 2 3 4 5 6, UI_bind, to_Decimal.
    destruct (Decimal kp) as [dkp|]; [|by left]. simpl.
    destruct (Decimal ki) as [dki|]; [|by left]. simpl.
    destruct (Decimal kd) as [dkd|]; [|by left]. right.
    apply (read_slot_shared "pidUpdate"
             (set_pid_kd dkd (set_pid_ki dki (set_pid_kp dkp u)))).
  - intros kp ki kd. apply only_ui_calls_shared_step. intros u. right.
    eexists. unfold force_pid. by rewrite lift_shared.
Qed.

End BothSides.

Lemma slots_stay_slots_witness :
  is_slot (queue_to_ui (shared (run_actions example_Decimal
     [ForcePID 0.5%float 0.1%float 0.05%float; ForceLocation "47.6" "-122.3";
      OnSimTelemetry telemetry_example; OnSimTelemetry telemetry_later;
      PassOutgoingCmd; SetLocation "47.61" "-122.33"] main_ui))) ∧
  is_slot (queue_out (shared (run_actions example_Decimal
     [ForcePID 0.5%float 0.1%float 0.05%float; ForceLocation "47.6" "-122.3";
      OnSimTelemetry telemetry_example; OnSimTelemetry telemetry_later;
      PassOutgoingCmd; SetLocation "47.61" "-122.33"] main_ui))).
Proof.
  apply (slots_stay_slots example_Decimal
     [ForcePID 0.5%float 0.1%float 0.05%float; ForceLocation "47.6" "-122.3";
      OnSimTelemetry telemetry_example; OnSimTelemetry telemetry_later;
      PassOutgoingCmd; SetLocation "47.61" "-122.33"] main_ui).
  - split; simpl; lia.
  - split; simpl; lia.
Defined.

(** ** The drain and the presentation thread *)

Section DrainUndisturbed.
Import MapComponent.
Implicit Types (w : world) (writes : list (list command)).

Lemma while_True_interleaved_undisturbed (fuel : nat) : ∀ writes w,
  Forall (λ ws, ws = []) writes →
  while_True_interleaved fuel writes w = while_True fuel pass_outgoing_cmd_body w.
Proof.
  induction fuel as [|fuel IH]; intros writes w Hquiet; simpl; [done|].
  assert (hd [] writes = []) as ->.
  { destruct Hquiet as [|ws writes Hws _]; [done|]. by subst ws. }
  assert (Forall (λ ws, ws = []) (tl writes)) as Hquiet'.
  { destruct Hquiet; [constructor|done]. }
  simpl. unfold mbind, M_bind. simpl.
  destruct (pass_outgoing_cmd_body w) as [[[]| |] w1]; [|done..].
  by apply IH.
Qed.

(** C2.  On the slot [main] created, one call of [pass_outgoing_cmd]
    during which the presentation thread appends nothing to [queue_out]
    ([writes] is empty at every iteration, so the call is [pass_outgoing_cmd]
    run alone) returns having handled no command when the slot was empty
    and exactly one when it was not; it never handles more than one, and it
    leaves the slot empty. *)
Theorem pass_outgoing_cmd_undisturbed_at_most_one w (fuel : nat) writes :
  is_slot (queue_out w) →
  Forall (λ ws, ws = []) writes →
  length (items (queue_out w)) < fuel →
  ∃ w',
    pass_outgoing_cmd_interleaved fuel writes w = (Returned (), w') ∧
    pass_outgoing_cmd w = (Returned (), w') ∧
    (items (queue_out w) = [] → handled_between w w' = 0) ∧
    (items (queue_out w) ≠ [] → handled_between w w' = 1) ∧
    handled_between w w' ≤ 1 ∧
    items (queue_out w') = [].
Proof.
  intros Hslot Hquiet Hfuel.
  destruct (pass_outgoing_cmd_at_most_one w Hslot) as (w' & Hrun & H0 & H1 & Hle & Hempty).
  exists w'. split; [|done].
  unfold pass_outgoing_cmd_interleaved, try_except.
  rewrite while_True_interleaved_undisturbed by done.
  rewrite (while_True_drained _ w fuel eq_refl Hfuel).
  rewrite pass_outgoing_cmd_drained in Hrun. simpl. done.
Qed.

End DrainUndisturbed.

Lemma pass_outgoing_cmd_undisturbed_at_most_one_witness :
  ∃ w',
    pass_outgoing_cmd_interleaved 5 [[]; []; []] pid_world = (Returned (), w') ∧
    MapComponent.pass_outgoing_cmd pid_world = (Returned (), w') ∧
    (items (queue_out pid_world) = [] → handled_between pid_world w' = 0) ∧
    (items (queue_out pid_world) ≠ [] → handled_between pid_world w' = 1) ∧
    handled_between pid_world w' ≤ 1 ∧
    items (queue_out w') = [].
Proof.
  apply (pass_outgoing_cmd_undisturbed_at_most_one pid_world 5 [[]; []; []]).
  - split; simpl; lia.
  - repeat constructor.
  - simpl. lia.
Defined.

(** The slot holds the gains of [forcePID(0.5, 0.1, 0.05)]; the
    presentation thread appends [('pid', (1.0,))] after the first [pop] of
    the loop.  The one call of [pass_outgoing_cmd] returns having published
    both commands: it has handled two, not at most one. *)
Lemma pass_outgoing_cmd_handles_two_in_one_call :
  is_slot (queue_out pid_world) ∧
  (pass_outgoing_cmd_interleaved 3 [[]; [("pid", [PyFloat 1.0%float])]] pid_world).1
    = Returned () ∧
  published
    (pass_outgoing_cmd_interleaved 3 [[]; [("pid", [PyFloat 1.0%float])]] pid_world).2
    = [("map.pid", pid_example); ("map.pid", [PyFloat 1.0%float])] ∧
  handled_between pid_world
    (pass_outgoing_cmd_interleaved 3 [[]; [("pid", [PyFloat 1.0%float])]] pid_world).2 = 2 ∧
  ¬ handled_between pid_world
      (pass_outgoing_cmd_interleaved 3 [[]; [("pid", [PyFloat 1.0%float])]] pid_world).2 ≤ 1.
Proof.
  split; [split; simpl; lia|].
  split; [reflexivity|]. split; [reflexivity|]. split; [reflexivity|].
  vm_compute. lia.
Qed.

(** ** What becomes of a location command *)

Section LocationCommand.
Context {D : Type} (Decimal : string → option D).
Import MapComponent.
Implicit Types (w : world) (acts : list action).

Lemma is_written_publish_of (cmds : list command) :
  Forall is_written cmds → Forall is_gains (omap publish_of cmds).
Proof.
  induction 1 as [|c cmds Hc _ IH]; simpl; [constructor|].
  destruct Hc as [(lat & lng & ->)|(kp & ki & kd & ->)]; unfold publish_of; simpl.
  - done.
  - constructor; [by exists kp, ki, kd|done].
Qed.

Lemma shared_step_gains w w' :
  shared_step w w' →
  Forall is_written (items (queue_out w)) ∧ Forall is_gains (published w) →
  Forall is_written (items (queue_out w')) ∧ Forall is_gains (published w').
Proof.
  intros Hstep [Hq Hp]. destruct Hstep; [| | | | |done].
  - destruct (on_sim_telemetry_frame telemetry w) as (w' & -> & Hq' & Hp' & _).
    simpl. by rewrite Hq', Hp'.
  - rewrite pass_outgoing_cmd_drained. simpl. split; [constructor|].
    apply Forall_app. split; [done|].
    apply is_written_publish_of, Forall_rev, Hq.
  - simpl. split; [|done]. apply trim_Forall, Forall_app. split; [done|].
    constructor; [|constructor]. left. by exists lat, lng.
  - simpl. split; [|done]. apply trim_Forall, Forall_app. split; [done|].
    constructor; [|constructor]. right. by exists kp, ki, kd.
  - unfold queue_to_ui_pop. by destruct (pop (queue_to_ui w)) as [[v d]|].
Qed.

(** C10.  [force_location] puts a command tagged ['loc'] into [queue_out],
    and ['loc'] matches neither arm of [pass_outgoing_cmd].  When the
    command is still in the slot at the next drain, it is logged as unknown
    and discarded, with no publish.  When [force_pid] replaces it in the
    slot before the drain, it is dropped with no log record.  In neither
    case is it published: whatever the session and the presentation layer
    do from the queues [main] creates, every publish made is one of three
    gains on [map.pid]. *)
Theorem location_command_is_never_published w acts (lat lng : string) (kp ki kd : float) :
  is_slot (queue_out w) →
  (∃ w1 w2,
     Locator.force_location lat lng w = (Returned (), w1) ∧
     items (queue_out w1) = [("loc", [PyStr lat; PyStr lng])] ∧
     pass_outgoing_cmd w1 = (Returned (), w2) ∧
     published w2 = published w ∧
     log w2 = log w ++ [LogWarning "Unknown command: loc, ignoring"] ∧
     items (queue_out w2) = []) ∧
  (∃ w',
     (Locator.force_location lat lng ;; PIDManager.force_pid kp ki kd ;;
      pass_outgoing_cmd) w = (Returned (), w') ∧
     published w' = published w ++ [("map.pid", [PyFloat kp; PyFloat ki; PyFloat kd])] ∧
     log w' = log w ∧
     items (queue_out w') = []) ∧
  Forall is_gains (published (shared (run_actions Decimal acts main_ui))).
Proof.
  intros Hslot. split; [by apply force_location_is_discarded|]. split.
  - unfold mbind, M_bind, PIDManager.force_pid, Locator.force_location, try_except,
      queue_out_append.
    rewrite pass_outgoing_cmd_drained.
    destruct w as [qui [m its] run reg subs pub lg cs].
    destruct Hslot as [Hmax Hlen]. simpl in Hmax, Hlen. subst m.
    destruct its as [|c0 [|c1 its]]; [| |simpl in Hlen; lia];
      (eexists; (split; [done|]); simpl; by rewrite ?app_nil_r).
  - apply (run_actions_invariant Decimal
             (λ w0, Forall is_written (items (queue_out w0)) ∧ Forall is_gains (published w0))
             shared_step_gains acts main_ui).
    split; constructor.
Qed.

End LocationCommand.

Lemma location_command_is_never_published_witness :
  (∃ w1 w2,
     Locator.force_location "47.6" "-122.3" main_world = (Returned (), w1) ∧
     items (queue_out w1) = [("loc", [PyStr "47.6"; PyStr "-122.3"])] ∧
     MapComponent.pass_outgoing_cmd w1 = (Returned (), w2) ∧
     published w2 = published main_world ∧
     log w2 = log main_world ++ [LogWarning "Unknown command: loc, ignoring"] ∧
     items (queue_out w2) = []) ∧
  (∃ w',
     (Locator.force_location "47.6" "-122.3" ;;
      PIDManager.force_pid 0.5%float 0.1%float 0.05%float ;;
      MapComponent.pass_outgoing_cmd) main_world = (Returned (), w') ∧
     published w' =
       published main_world ++
       [("map.pid", [PyFloat 0.5%float; PyFloat 0.1%float; PyFloat 0.05%float])] ∧
     log w' = log main_world ∧
     items (queue_out w') = []) ∧
  Forall is_gains
    (published (shared (run_actions example_Decimal
       [ForceLocation "47.6" "-122.3"; PassOutgoingCmd;
        ForceLocation "47.6" "-122.3"; ForcePID 0.5%float 0.1%float 0.05%float;
        PassOutgoingCmd] main_ui))).
Proof.
  apply (location_command_is_never_published example_Decimal main_world
           [ForceLocation "47.6" "-122.3"; PassOutgoingCmd;
            ForceLocation "47.6" "-122.3"; ForcePID 0.5%float 0.1%float 0.05%float;
            PassOutgoingCmd]
           "47.6" "-122.3" 0.5%float 0.1%float 0.05%float).
  split; simpl; lia.
Defined.

(** [force_location] writes a location into the fresh slot and [force_pid]
    replaces it before the session's next drain.  The drain publishes the
    gains and logs nothing: the location command was never logged as
    unknown. *)
Lemma force_location_overwritten_is_not_logged :
  (Locator.force_location "47.6" "-122.3" main_world).1 = Returned () ∧
  items (queue_out (Locator.force_location "47.6" "-122.3" main_world).2)
    = [("loc", [PyStr "47.6"; PyStr "-122.3"])] ∧
  (Locator.force_location "47.6" "-122.3" ;;
   PIDManager.force_pid 0.5%float 0.1%float 0.05%float ;;
   MapComponent.pass_outgoing_cmd) main_world
  = (Returned (),
     World (new_deque 1) (Deque 1 []) false [] []
       [("map.pid", pid_example)]
       []
       [(QueueOut, MAppend); (QueueOut, MAppend); (QueueOut, MPop); (QueueOut, MPop)]) ∧
  LogWarning "Unknown command: loc, ignoring" ∉
    log ((Locator.force_location "47.6" "-122.3" ;;
          PIDManager.force_pid 0.5%float 0.1%float 0.05%float ;;
          MapComponent.pass_outgoing_cmd) main_world).2.
Proof.
  split; [reflexivity|]. split; [reflexivity|]. split; [reflexivity|].
  vm_compute. apply not_elem_of_nil.
Qed.

(** ** The session beside a router that can fail *)

Section RouterFacts.
Variable fails : world → autobahn_call → option exn.
Implicit Types (w : world) (c : command).

Lemma while_True_ext (fuel : nat) (body1 body2 : M unit) :
  (∀ w, body1 w = body2 w) →
  ∀ w, while_True fuel body1 w = while_True fuel body2 w.
Proof.
  intros Hbody. induction fuel as [|fuel IH]; intros w; simpl; [done|].
  unfold mbind, M_bind. rewrite Hbody.
  by destruct (body2 w) as [[[]| |] w1].
Qed.

Lemma pass_outgoing_cmd_body_publish_returns :
  (∀ w0 topic arguments, fails w0 (CallPublish topic arguments) = None) →
  ∀ w, WithRouter.pass_outgoing_cmd_body fails w = MapComponent.pass_outgoing_cmd_body w.
Proof.
  intros Hup w.
  unfold WithRouter.pass_outgoing_cmd_body, MapComponent.pass_outgoing_cmd_body,
    mbind, M_bind.
  destruct (queue_out_pop w) as [[[cmd arguments]| |] w1]; [|done..].
  unfold WithRouter.publish, WithRouter.autobahn.
  repeat case_decide; by rewrite ?Hup.
Qed.

Lemma pass_outgoing_cmd_publish_returns :
  (∀ w0 topic arguments, fails w0 (CallPublish topic arguments) = None) →
  ∀ w, WithRouter.pass_outgoing_cmd fails w = (Returned (), drained (items (queue_out w)) w).
Proof.
  intros Hup w. rewrite <- pass_outgoing_cmd_drained.
  unfold WithRouter.pass_outgoing_cmd, WithRouter.pass_outgoing_cmd_fuel,
    MapComponent.pass_outgoing_cmd, MapComponent.pass_outgoing_cmd_fuel, try_except.
  by rewrite (while_True_ext _ _ _ (pass_outgoing_cmd_body_publish_returns Hup)).
Qed.

(** X1.  While [publish] returns, whatever [queue_out] holds and whatever
    its bound, one call of [pass_outgoing_cmd] returns and leaves it empty.
    The commands are taken from the right end: the publishes and the
    warnings come newest command first, one per command.  [queue_to_ui] and
    the session's own state are not touched. *)
Theorem drain_newest_first w :
  (∀ w0 topic arguments, fails w0 (CallPublish topic arguments) = None) →
  ∃ w',
    WithRouter.pass_outgoing_cmd fails w = (Returned (), w') ∧
    published w' = published w ++ omap publish_of (rev (items (queue_out w))) ∧
    log w' = log w ++ omap warning_of (rev (items (queue_out w))) ∧
    items (queue_out w') = [] ∧
    maxlen (queue_out w') = maxlen (queue_out w) ∧
    queue_to_ui w' = queue_to_ui w ∧
    is_running w' = is_running w ∧
    registered w' = registered w ∧
    subscriptions w' = subscriptions w.
Proof.
  intros Hup. eexists. split; [by apply pass_outgoing_cmd_publish_returns|]. done.
Qed.

(** X3.  While [publish] returns, a command is handled once.  The first
    of two calls of [pass_outgoing_cmd] in a row makes one publish or logs
    one warning for each command [queue_out] holds; the second call makes
    no publish and logs nothing. *)
Theorem drain_twice_handles_once w :
  (∀ w0 topic arguments, fails w0 (CallPublish topic arguments) = None) →
  ∃ w1 w2,
    WithRouter.pass_outgoing_cmd fails w = (Returned (), w1) ∧
    published w1 = published w ++ omap publish_of (rev (items (queue_out w))) ∧
    log w1 = log w ++ omap warning_of (rev (items (queue_out w))) ∧
    (WithRouter.pass_outgoing_cmd fails ;; WithRouter.pass_outgoing_cmd fails) w
      = (Returned (), w2) ∧
    published w2 = published w1 ∧
    log w2 = log w1 ∧
    queue_out w2 = queue_out w1 ∧
    queue_to_ui w2 = queue_to_ui w1.
Proof.
  intros Hup. eexists. eexists.
  split; [by apply pass_outgoing_cmd_publish_returns|].
  split; [done|]. split; [done|].
  unfold mbind, M_bind. rewrite !(pass_outgoing_cmd_publish_returns Hup).
  split; [done|]. simpl. by rewrite !app_nil_r.
Qed.

(** X25.  Only [IndexError] is caught, and the [try] encloses the
    [publish] calls.  When the slot holds a ['pos'] or ['pid'] command and
    the [publish] made for it raises [e], the command has already left the
    slot and is lost: nothing is published or logged.  [pass_outgoing_cmd]
    lets [e] through, unless [e] is an [IndexError], which it takes for the
    empty slot and swallows. *)
Theorem failed_publish_loses_command w c (p : string * list pyval) (e : exn) :
  items (queue_out w) = [c] →
  publish_of c = Some p →
  (∀ w0, fails w0 (CallPublish p.1 p.2) = Some e) →
  ∃ w',
    WithRouter.pass_outgoing_cmd fails w
      = (if is_IndexError e then Returned () else Raised e, w') ∧
    items (queue_out w') = [] ∧
    published w' = published w ∧
    log w' = log w ∧
    queue_to_ui w' = queue_to_ui w.
Proof.
  intros Hitems Hp Hfails. destruct c as [cmd arguments].
  unfold WithRouter.pass_outgoing_cmd. rewrite Hitems.
  destruct w as [qui [m its] run reg subs pub lg cs]. simpl in Hitems. subst its.
  unfold WithRouter.pass_outgoing_cmd_fuel, try_except, WithRouter.pass_outgoing_cmd_body.
  simpl. unfold mbind, M_bind, queue_out_pop. simpl.
  unfold publish_of in Hp. simpl in Hp.
  unfold WithRouter.publish, WithRouter.autobahn.
  repeat case_decide; simplify_eq; simpl in Hfails; rewrite Hfails;
    destruct (is_IndexError e); eexists; (split; [reflexivity|]); done.
Qed.

(** *** The loop *)

Lemma keeps_is_running_ret {A : Type} (a : A) : keeps_is_running (mret a).
Proof. done. Qed.

Lemma keeps_is_running_bind {A B : Type} (m : M A) (f : A → M B) :
  keeps_is_running m → (∀ a, keeps_is_running (f a)) → keeps_is_running (m ≫= f).
Proof.
  intros Hm Hf w. unfold mbind, M_bind. specialize (Hm w).
  destruct (m w) as [[a| |] w1]; simpl in *; [|done..].
  by rewrite Hf.
Qed.

Lemma keeps_is_running_try_except {A : Type} (body : M A) catches handler :
  keeps_is_running body → (∀ e, keeps_is_running (handler e)) →
  keeps_is_running (try_except body catches handler).
Proof.
  intros Hb Hh w. unfold try_except. specialize (Hb w).
  destruct (body w) as [[a|e|] w1]; simpl in *; [done| |done].
  destruct (catches e); [|done]. by rewrite Hh.
Qed.

Lemma keeps_is_running_while_True fuel body :
  keeps_is_running body → keeps_is_running (while_True fuel body).
Proof.
  intros Hb. induction fuel as [|fuel IH]; simpl; [done|].
  by apply keeps_is_running_bind.
Qed.

Lemma keeps_is_running_for_each {A : Type} (f : A → M unit) xs :
  (∀ x, keeps_is_running (f x)) → keeps_is_running (for_each f xs).
Proof.
  intros Hf. induction xs as [|x xs IH]; simpl; [done|].
  by apply keeps_is_running_bind.
Qed.

Lemma keeps_is_running_queue_out_pop : keeps_is_running queue_out_pop.
Proof. intros w. unfold queue_out_pop. by destruct (pop (queue_out w)) as [[c d]|]. Qed.

Lemma keeps_is_running_queue_to_ui_pop : keeps_is_running queue_to_ui_pop.
Proof. intros w. unfold queue_to_ui_pop. by destruct (pop (queue_to_ui w)) as [[v d]|]. Qed.

Lemma keeps_is_running_autobahn call (returns : M unit) :
  keeps_is_running returns → keeps_is_running (WithRouter.autobahn fails call returns).
Proof.
  intros Hr w. unfold WithRouter.autobahn. by destruct (fails w call).
Qed.

Lemma keeps_is_running_on_sim_telemetry telemetry :
  keeps_is_running (MapComponent.on_sim_telemetry telemetry).
Proof.
  intros w.
  by destruct (on_sim_telemetry_frame telemetry w) as (w' & -> & _ & _ & (Hr & _ & _) & _).
Qed.

Lemma keeps_is_running_pass_outgoing_cmd :
  keeps_is_running (WithRouter.pass_outgoing_cmd fails).
Proof.
  intros w. unfold WithRouter.pass_outgoing_cmd.
  apply keeps_is_running_try_except; [|done].
  apply keeps_is_running_while_True, keeps_is_running_bind;
    [apply keeps_is_running_queue_out_pop|].
  intros [cmd arguments].
  repeat case_decide; try by apply keeps_is_running_autobahn. done.
Qed.

Lemma keeps_is_running_sleep events : keeps_is_running (WithRouter.sleep events).
Proof.
  apply keeps_is_running_for_each. intros [telemetry|c|]; simpl.
  - apply keeps_is_running_on_sim_telemetry.
  - done.
  - apply keeps_is_running_try_except; [|done].
    apply keeps_is_running_bind; [apply keeps_is_running_queue_to_ui_pop|done].
Qed.

Lemma onJoin_loop_not_returned schedule : ∀ w,
  is_running w = true →
  (WithRouter.onJoin_loop fails schedule w).1 ≠ Returned ().
Proof.
  induction schedule as [|events schedule IH]; intros w Hrunning; simpl; [done|].
  rewrite Hrunning. unfold mbind, M_bind.
  pose proof (keeps_is_running_pass_outgoing_cmd w) as Hk1.
  destruct (WithRouter.pass_outgoing_cmd fails w) as [[[]| |] w1]; [|done..].
  pose proof (keeps_is_running_sleep events w1) as Hk2.
  destruct (WithRouter.sleep events w1) as [[[]| |] w2]; [|done..].
  apply IH. simpl in *. congruence.
Qed.

(** X9.  [onJoin] never returns normally: it sets [is_running] and
    nothing in the session or in the presentation layer clears it, so its
    loop can end only by an exception.  This holds whichever Autobahn calls
    fail, whatever telemetry arrives and whatever the presentation thread
    does during the sleeps, for any number of iterations. *)
Theorem onJoin_never_returns_normally (schedule : list (list during_sleep)) w :
  (WithRouter.onJoin fails schedule w).1 ≠ Returned ().
Proof.
  unfold WithRouter.onJoin, mbind, M_bind, WithRouter.register, WithRouter.subscribe,
    WithRouter.autobahn.
  destruct (fails w (CallRegister "roundrobin")); [done|]. simpl.
  destruct (fails _ (CallSubscribe "sim.telemetry")); [done|]. simpl.
  by apply onJoin_loop_not_returned.
Qed.

End RouterFacts.

(** ** What the loop publishes *)

Section LoopPublishes.
Variable fails : world → autobahn_call → option exn.
Implicit Types (w : world) (schedule : list (list during_sleep)).

Lemma happen_spec (ev : during_sleep) w :
  ∃ w',
    WithRouter.happen ev w = (Returned (), w') ∧
    published w' = published w ∧
    is_running w' = is_running w ∧
    maxlen (queue_out w') = maxlen (queue_out w) ∧
    items (queue_out w') =
      match ev with
      | UiAppended c => trim (maxlen (queue_out w)) (items (queue_out w) ++ [c])
      | _ => items (queue_out w)
      end.
Proof.
  destruct ev as [telemetry|c|]; simpl.
  - destruct (on_sim_telemetry_frame telemetry w)
      as (w' & -> & Hq & Hp & (Hr & _ & _) & _).
    exists w'. by rewrite Hq.
  - eexists. split; [reflexivity|]. done.
  - unfold try_except, mbind, M_bind, queue_to_ui_pop.
    destruct (pop (queue_to_ui w)) as [[v d]|]; simpl; eexists; (split; [reflexivity|]); done.
Qed.

Lemma sleep_spec (events : list during_sleep) : ∀ w,
  maxlen (queue_out w) = 1 →
  ∃ w',
    WithRouter.sleep events w = (Returned (), w') ∧
    published w' = published w ∧
    is_running w' = is_running w ∧
    maxlen (queue_out w') = 1 ∧
    items (queue_out w') = written_during events (items (queue_out w)).
Proof.
  unfold WithRouter.sleep, written_during.
  induction events as [|ev events IH]; intros w Hmax; simpl.
  - by exists w.
  - destruct (happen_spec ev w) as (w1 & Hrun & Hp & Hr & Hm & Hq).
    destruct (IH w1) as (w' & Hrun' & Hp' & Hr' & Hm' & Hq'); [congruence|].
    exists w'. unfold mbind, M_bind. rewrite Hrun.
    split; [done|]. split; [congruence|]. split; [congruence|]. split; [done|].
    rewrite Hq', Hq, Hmax. by destruct ev.
Qed.

Lemma onJoin_loop_publishes schedule : ∀ w,
  (∀ w0 call, fails w0 call = None) →
  is_running w = true →
  maxlen (queue_out w) = 1 →
  ∃ w',
    WithRouter.onJoin_loop fails schedule w = (Unfinished, w') ∧
    published w' = published w ++ loop_publishes (items (queue_out w)) schedule.
Proof.
  induction schedule as [|events schedule IH]; intros w router_returns Hrunning Hmax; simpl.
  - exists w. by rewrite app_nil_r.
  - rewrite Hrunning. unfold mbind, M_bind.
    rewrite (pass_outgoing_cmd_publish_returns fails) by done.
    destruct (sleep_spec events (drained (items (queue_out w)) w))
      as (w2 & -> & Hp & Hr & Hm & Hq); [done|].
    destruct (IH w2) as (w' & -> & Hp'); [done|by rewrite Hr|done|].
    exists w'. split; [done|].
    rewrite Hp', Hp, Hq. simpl. by rewrite app_assoc.
Qed.

(** X10.  While the Autobahn calls return, each iteration of the loop of
    [onJoin] publishes what the slot holds when it starts, and the next
    iteration finds what the presentation thread wrote during the sleep:
    the last command written if several were, nothing if none was.  So a
    command written once is published once, a command replaced before the
    next iteration is never published, and telemetry publishes nothing. *)
Theorem onJoin_publishes_what_was_written_last schedule w :
  (∀ w0 call, fails w0 call = None) →
  maxlen (queue_out w) = 1 →
  ∃ w',
    WithRouter.onJoin fails schedule w = (Unfinished, w') ∧
    published w' = published w ++ loop_publishes (items (queue_out w)) schedule.
Proof.
  intros router_returns Hmax.
  unfold WithRouter.onJoin, mbind, M_bind, WithRouter.register, WithRouter.subscribe,
    WithRouter.autobahn.
  rewrite !router_returns. simpl. rewrite !router_returns. simpl.
  destruct (onJoin_loop_publishes schedule
              (set_is_running true (add_subscription "sim.telemetry"
                 (add_registered "roundrobin" w))) router_returns eq_refl Hmax)
    as (w' & -> & Hp).
  by exists w'.
Qed.

End LoopPublishes.

Lemma drain_newest_first_witness :
  ∃ w',
    WithRouter.pass_outgoing_cmd router_up pid_world = (Returned (), w') ∧
    published w' = published pid_world ++ omap publish_of (rev (items (queue_out pid_world))) ∧
    log w' = log pid_world ++ omap warning_of (rev (items (queue_out pid_world))) ∧
    items (queue_out w') = [] ∧
    maxlen (queue_out w') = maxlen (queue_out pid_world) ∧
    queue_to_ui w' = queue_to_ui pid_world ∧
    is_running w' = is_running pid_world ∧
    registered w' = registered pid_world ∧
    subscriptions w' = subscriptions pid_world.
Proof.
  apply (drain_newest_first router_up pid_world).
  reflexivity.
Defined.

Lemma drain_twice_handles_once_witness :
  ∃ w1 w2,
    WithRouter.pass_outgoing_cmd router_up pid_world = (Returned (), w1) ∧
    published w1 = published pid_world ++ omap publish_of (rev (items (queue_out pid_world))) ∧
    log w1 = log pid_world ++ omap warning_of (rev (items (queue_out pid_world))) ∧
    (WithRouter.pass_outgoing_cmd router_up ;; WithRouter.pass_outgoing_cmd router_up) pid_world
      = (Returned (), w2) ∧
    published w2 = published w1 ∧
    log w2 = log w1 ∧
    queue_out w2 = queue_out w1 ∧
    queue_to_ui w2 = queue_to_ui w1.
Proof.
  apply (drain_twice_handles_once router_up pid_world).
  reflexivity.
Defined.

Lemma failed_publish_loses_command_witness :
  ∃ w',
    WithRouter.pass_outgoing_cmd (publish_raises TransportLost) pid_world
      = (if is_IndexError TransportLost then Returned () else Raised TransportLost, w') ∧
    items (queue_out w') = [] ∧
    published w' = published pid_world ∧
    log w' = log pid_world ∧
    queue_to_ui w' = queue_to_ui pid_world.
Proof.
  apply (failed_publish_loses_command (publish_raises TransportLost) pid_world
           ("pid", pid_example) ("map.pid", pid_example) TransportLost).
  - reflexivity.
  - reflexivity.
  - reflexivity.
Defined.

Lemma onJoin_publishes_what_was_written_last_witness :
  ∃ w',
    WithRouter.onJoin router_up
      [[UiAppended ("pid", [PyFloat 1.0%float]); UiAppended ("loc", [PyStr "47.6"; PyStr "-122.3"])];
       [Delivered telemetry_example; UiAppended ("pid", [PyFloat 2.0%float])];
       [UiPopped];
       []] pid_world = (Unfinished, w') ∧
    published w' =
      published pid_world ++
      [("map.pid", pid_example); ("map.pid", [PyFloat 2.0%float])].
Proof.
  apply (onJoin_publishes_what_was_written_last router_up
    [[UiAppended ("pid", [PyFloat 1.0%float]); UiAppended ("loc", [PyStr "47.6"; PyStr "-122.3"])];
     [Delivered telemetry_example; UiAppended ("pid", [PyFloat 2.0%float])];
     [UiPopped];
     []] pid_world).
  - reflexivity.
  - reflexivity.
Defined.
